(** * BankAccount (OOP/P09_BankAccount.py) and Array (Programs/P30_Array.py)

  A shallow embedding of the two classes of the repository and the proofs
  of their specified properties.

  - [Py]: what the two classes share with Python itself: exceptions, a
    state-and-exception monad for methods that mutate [self], values,
    list indexing and [range].
  - [PyDecimal]: the part of Python's [decimal] module the bank account
    uses, under the default context (28 digits, ROUND_HALF_EVEN).
  - [BankAccount]: the class, its class attribute and the objects' heap.
  - [Array]: the fixed-size array.
  The theorems follow the definitions. *)

From Stdlib Require Import ZArith Lia Bool List Ascii String Permutation.
From stdpp Require Import base list strings gmap.

Local Open Scope Z_scope.

(* ===================================================================== *)
(** ** Python: exceptions, effects, values                                *)
(* ===================================================================== *)

Module Py.

(** The exceptions the two modules raise or let through. [InvalidOperation]
    and [Overflow] are the [decimal] signals that the default context
    traps. [DanglingReference] does not exist in Python, where a reference
    always denotes a live object: it is what the model answers on a
    location outside the heap. *)
Inductive exn : Type :=
| ValueError
| TypeError
| IndexError
| InvalidOperation
| Overflow
| InvalidAmountError
| InsufficientFundsError
| ArrayError
| DanglingReference.

(** A method on state [S]: it returns or raises, and leaves a state
    behind in both cases. *)
Definition M (S A : Type) : Type := S -> (exn + A) * S.

Definition ret {S A} (a : A) : M S A := fun s => (inr a, s).

Definition raise {S A} (e : exn) : M S A := fun s => (inl e, s).

Definition bind {S A B} (m : M S A) (k : A -> M S B) : M S B :=
  fun s =>
    match m s with
    | (inr a, s') => k a s'
    | (inl e, s') => (inl e, s')
    end.

(** [try: m except <the exceptions h answers>: h e]. *)
Definition try_except {S A} (m : M S A) (h : exn -> option (M S A)) : M S A :=
  fun s =>
    match m s with
    | (inr a, s') => (inr a, s')
    | (inl e, s') =>
        match h e with
        | Some handler => handler s'
        | None => (inl e, s')
        end
    end.

(** A pure computation that may raise. *)
Definition lift {S A} (r : exn + A) : M S A := fun s => (r, s).

Definition get {S} : M S S := fun s => (inr s, s).

Definition put {S} (s : S) : M S unit := fun _ => (inr tt, s).

(** [for i in l: body i]. *)
Fixpoint for_ {S} (l : list Z) (body : Z -> M S unit) : M S unit :=
  match l with
  | [] => ret tt
  | i :: l' => bind (body i) (fun _ => for_ l' body)
  end.

(** [range(start, stop, -1)]: start, start - 1, ..., stop + 1. *)
Definition range_down (start stop : Z) : list Z :=
  map (fun k => start - Z.of_nat k) (seq 0 (Z.to_nat (start - stop))).

(** Python values as the array stores them: [None], integers, strings
    and lists of values. On these [==] is structural equality, and
    [is None] holds of [None] only. *)
#[local] Set Warnings "-register-all".
Inductive value : Type :=
| None_
| Int (z : Z)
| Str (s : string)
| List_ (l : list value).

Definition is_None (v : value) : bool :=
  match v with None_ => true | _ => false end.

Definition is_list (v : value) : bool :=
  match v with List_ _ => true | _ => false end.

(** [x == y]. *)
Fixpoint eqb (x y : value) {struct x} : bool :=
  match x, y with
  | None_, None_ => true
  | Int a, Int b => Z.eqb a b
  | Str a, Str b => String.eqb a b
  | List_ l, List_ m =>
      (fix eqb_list (l m : list value) {struct l} : bool :=
         match l, m with
         | [], [] => true
         | a :: l', b :: m' => eqb a b && eqb_list l' m'
         | _, _ => false
         end) l m
  | _, _ => false
  end.

(** [l[i]]: a negative index counts from the end; outside the list it
    raises IndexError. *)
Definition getitem {A} (l : list A) (i : Z) : exn + A :=
  let n := Z.of_nat (length l) in
  let j := if i <? 0 then i + n else i in
  if (j <? 0) || (n <=? j) then inl IndexError
  else match l !! Z.to_nat j with
       | Some x => inr x
       | None => inl IndexError
       end.

(** [l[i] = x]. *)
Definition setitem {A} (l : list A) (i : Z) (x : A) : exn + list A :=
  let n := Z.of_nat (length l) in
  let j := if i <? 0 then i + n else i in
  if (j <? 0) || (n <=? j) then inl IndexError
  else inr (<[Z.to_nat j := x]> l).

(** [l.index(x)]: the first position holding a value equal to [x];
    [None] stands for the ValueError of a list without one. *)
Fixpoint index (l : list value) (x : value) : option nat :=
  match l with
  | [] => None
  | y :: l' => if eqb y x then Some O else option_map S (index l' x)
  end.

End Py.

Declare Scope py_scope.
Delimit Scope py_scope with py.
Notation "x <- c1 ;; c2" := (Py.bind c1 (fun x => c2))
  (at level 100, c1 at next level, right associativity) : py_scope.
Notation "c1 ;; c2" := (Py.bind c1 (fun _ => c2))
  (at level 100, right associativity) : py_scope.

(* ===================================================================== *)
(** ** decimal.Decimal under the default context                          *)
(* ===================================================================== *)

Module PyDecimal.

(** [getcontext()]: the fields arithmetic depends on. The rounding mode
    is ROUND_HALF_EVEN, clamp is 0 and the trapped signals are
    InvalidOperation, DivisionByZero and Overflow, as in the default
    context; the module never changes them. *)
Record Context : Type := { prec : Z; Emin : Z; Emax : Z }.

Definition DefaultContext : Context :=
  {| prec := 28; Emin := -999999; Emax := 999999 |}.

Definition Etiny (ctx : Context) : Z := Emin ctx - prec ctx + 1.

Definition Etop (ctx : Context) : Z := Emax ctx - prec ctx + 1.

(** A Decimal: [Finite c e] is [c * 10^e], with its exponent as the
    object carries it ([Decimal('1.50')] is [Finite 150 (-2)]). The sign
    of a zero is not kept: [Decimal('-0')] and [Decimal('0')] answer
    every comparison alike. Quiet and signalling NaN, which the class
    cannot tell apart, are one value. *)
Inductive t : Type :=
| Finite (coeff : Z) (exp : Z)
| Infinity (negative : bool)
| NaN.

(** [Decimal(0)], what the int [0] becomes in a comparison. *)
Definition zero : t := Finite 0 0.

(** [len(str(n))] for [0 <= n]: the number of decimal digits. *)
Fixpoint ndigits_fuel (fuel : nat) (n : Z) : Z :=
  match fuel with
  | O => 1
  | S fuel' => if n <? 10 then 1 else 1 + ndigits_fuel fuel' (n / 10)
  end.

Definition ndigits (n : Z) : Z := ndigits_fuel (Z.to_nat (Z.log2 n)) n.

(** [x.adjusted()]: the exponent of the leading digit. *)
Definition adjusted (c e : Z) : Z := ndigits (Z.abs c) + e - 1.

(** [x._cmp(y)] on finite operands, exact whatever the context. A zero
    is compared by the sign of the other operand, operands of opposite
    signs by their signs, operands of one sign by their adjusted
    exponents and, when these agree, by their coefficients padded with
    zeros to the smaller exponent. *)
Definition cmp_finite (c1 e1 c2 e2 : Z) : comparison :=
  if c1 =? 0 then 0 ?= c2
  else if c2 =? 0 then c1 ?= 0
  else if (c1 <? 0) && (0 <? c2) then Lt
  else if (0 <? c1) && (c2 <? 0) then Gt
  else if adjusted c1 e1 =? adjusted c2 e2 then
    (c1 * 10 ^ (e1 - Z.min e1 e2)) ?= (c2 * 10 ^ (e2 - Z.min e1 e2))
  else if adjusted c2 e2 <? adjusted c1 e1 then (if 0 <? c1 then Gt else Lt)
  else (if 0 <? c1 then Lt else Gt).

(** An ordering comparison signals InvalidOperation on a NaN. *)
Definition cmp (x y : t) : Py.exn + comparison :=
  match x, y with
  | NaN, _ | _, NaN => inl Py.InvalidOperation
  | Infinity s1, Infinity s2 =>
      inr (match s1, s2 with
           | true, false => Lt
           | false, true => Gt
           | _, _ => Eq
           end)
  | Infinity s, Finite _ _ => inr (if s then Lt else Gt)
  | Finite _ _, Infinity s => inr (if s then Gt else Lt)
  | Finite c1 e1, Finite c2 e2 => inr (cmp_finite c1 e1 c2 e2)
  end.

Definition test (p : comparison -> bool) (x y : t) : Py.exn + bool :=
  match cmp x y with
  | inl e => inl e
  | inr c => inr (p c)
  end.

(** [x < y], [x <= y], [x > y], [x >= y]. *)
Definition lt : t -> t -> Py.exn + bool :=
  test (fun c => match c with Lt => true | _ => false end).
Definition le : t -> t -> Py.exn + bool :=
  test (fun c => match c with Gt => false | _ => true end).
Definition gt : t -> t -> Py.exn + bool :=
  test (fun c => match c with Gt => true | _ => false end).
Definition ge : t -> t -> Py.exn + bool :=
  test (fun c => match c with Lt => false | _ => true end).

(** ROUND_HALF_EVEN of [n / 10^k], for [0 <= n] and [0 <= k]. *)
Definition round_half_even (n k : Z) : Z :=
  let p := 10 ^ k in
  let q := n / p in
  let r := n mod p in
  if (p <? 2 * r) || ((2 * r =? p) && Z.odd q) then q + 1 else q.

(** [Decimal._fix(context)]: round the exact result [c * 10^e] to the
    context. A zero keeps an exponent within [Etiny, Emax]; a result
    whose adjusted exponent exceeds Emax raises Overflow; a coefficient
    of more than [prec] digits, or an exponent below Etiny, is rounded. *)
Definition fix_ (ctx : Context) (c e : Z) : Py.exn + t :=
  if c =? 0 then inr (Finite 0 (Z.min (Z.max e (Etiny ctx)) (Emax ctx)))
  else
    let n := Z.abs c in
    let exp_min := ndigits n + e - prec ctx in
    if Etop ctx <? exp_min then inl Py.Overflow
    else
      let exp_min := Z.max exp_min (Etiny ctx) in
      if e <? exp_min then
        let q := round_half_even n (exp_min - e) in
        let '(q, exp_min) :=
          if prec ctx <? ndigits q then (q / 10, exp_min + 1) else (q, exp_min) in
        if Etop ctx <? exp_min then inl Py.Overflow
        else inr (Finite (Z.sgn c * q) exp_min)
      else inr (Finite c e).

(** [x.__add__(y)] on finite operands. With a zero operand the other one
    is rescaled, to an exponent no lower than its own minus [prec + 1];
    otherwise the exact sum at the smaller exponent is rounded.
    ([_normalize], which shortens an operand that is too small to
    matter, changes neither the value nor the exponent of the rounded
    result and is left out.) *)
Definition add_finite (ctx : Context) (c1 e1 c2 e2 : Z) : Py.exn + t :=
  let exp := Z.min e1 e2 in
  if (c1 =? 0) && (c2 =? 0) then fix_ ctx 0 exp
  else if c1 =? 0 then
    let exp := Z.max exp (e2 - prec ctx - 1) in
    fix_ ctx (c2 * 10 ^ (e2 - exp)) exp
  else if c2 =? 0 then
    let exp := Z.max exp (e1 - prec ctx - 1) in
    fix_ ctx (c1 * 10 ^ (e1 - exp)) exp
  else fix_ ctx (c1 * 10 ^ (e1 - exp) + c2 * 10 ^ (e2 - exp)) exp.

(** [x + y]. On a NaN the result is written for a quiet one; the class
    never adds a NaN, every operand having passed a comparison first. *)
Definition add (ctx : Context) (x y : t) : Py.exn + t :=
  match x, y with
  | NaN, _ | _, NaN => inr NaN
  | Infinity s1, Infinity s2 =>
      if Bool.eqb s1 s2 then inr (Infinity s1) else inl Py.InvalidOperation
  | Infinity s, Finite _ _ => inr (Infinity s)
  | Finite _ _, Infinity s => inr (Infinity s)
  | Finite c1 e1, Finite c2 e2 => add_finite ctx c1 e1 c2 e2
  end.

(** [y.copy_negate()]. *)
Definition copy_negate (y : t) : t :=
  match y with
  | Finite c e => Finite (- c) e
  | Infinity s => Infinity (negb s)
  | NaN => NaN
  end.

(** [x - y]: [x + y.copy_negate()]. *)
Definition sub (ctx : Context) (x y : t) : Py.exn + t :=
  add ctx x (copy_negate y).

(** [x >= 0] is True: what the class keeps true of a balance. *)
Definition nonneg (x : t) : Prop := ge x zero = inr true.

End PyDecimal.

(* ===================================================================== *)
(** ** OOP/P09_BankAccount.py                                             *)
(* ===================================================================== *)

Module BankAccount.
Import Py.
Local Open Scope py_scope.

(** An instance: its three attributes. *)
Record t : Type := { name : string; balance : PyDecimal.t; account_number : Z }.

(** Instances are mutable and passed by reference: a reference is a
    position in the heap of the instances created so far. *)
Abbreviation loc := nat.

(** The class attribute and the instances. *)
Record world : Type := { _next_account_number : Z; heap : list t }.

(** The class as the module defines it: numbers start from 1000. *)
Definition initial_world : world :=
  {| _next_account_number := 1000; heap := [] |}.

(** A [name] argument: a str, or an object of another type. *)
Inductive name_arg : Type :=
| StrName (s : string)
| NotStr.

(** An amount argument, by what [Decimal(str(amount))] makes of it: the
    Decimal that [str(amount)] denotes (an int, a float, a Decimal or a
    numeric string, 'Infinity' and 'NaN' included); InvalidOperation
    for any other text; or the exception that [str(amount)] itself
    raises (ValueError for an int of more than 4300 digits, whatever
    the [__str__] of an object raises). *)
Inductive arg : Type :=
| Numeric (d : PyDecimal.t)
| NotNumeric
| StrRaises (e : exn).

(** An [other_account] argument: an instance, or an object of another
    type. *)
Inductive obj : Type :=
| Instance (l : loc)
| NotInstance.

(** [Decimal(str(amount))]. *)
Definition Decimal_str (amount : arg) : exn + PyDecimal.t :=
  match amount with
  | Numeric d => inr d
  | NotNumeric => inl InvalidOperation
  | StrRaises e => inl e
  end.

(** [c.isspace()] on code points below 256. *)
Definition isspace (c : ascii) : bool :=
  let n := nat_of_ascii c in
  ((9 <=? n) && (n <=? 13) || (28 <=? n) && (n <=? 32)
   || (n =? 133) || (n =? 160))%nat.

Fixpoint lstrip (s : string) : string :=
  match s with
  | EmptyString => EmptyString
  | String c s' => if isspace c then lstrip s' else s
  end.

(** [s.strip()]. *)
Definition strip (s : string) : string :=
  String.rev (lstrip (String.rev (lstrip s))).

(** [except (InvalidOperation, TypeError) as e: raise InvalidAmountError]. *)
Definition except_invalid {A} (e : exn) : option (M world A) :=
  match e with
  | InvalidOperation | TypeError => Some (raise InvalidAmountError)
  | _ => None
  end.

(** [self.balance]. *)
Definition get_balance (self : loc) : M world PyDecimal.t :=
  fun w =>
    match heap w !! self with
    | Some a => (inr (balance a), w)
    | None => (inl DanglingReference, w)
    end.

(** The instance [a] with balance [b], and the world with [a] at [l]. *)
Definition with_balance (a : t) (b : PyDecimal.t) : t :=
  {| name := name a; balance := b; account_number := account_number a |}.

Definition store (w : world) (l : loc) (a : t) : world :=
  {| _next_account_number := _next_account_number w;
     heap := <[l := a]> (heap w) |}.

(** [self.balance = b]. *)
Definition set_balance (self : loc) (b : PyDecimal.t) : M world unit :=
  fun w =>
    match heap w !! self with
    | Some a => (inr tt, store w self (with_balance a b))
    | None => (inl DanglingReference, w)
    end.

Definition getcontext : PyDecimal.Context := PyDecimal.DefaultContext.

(** [BankAccount(name, initial_balance)]: the reference to the new
    instance. *)
Definition __init__ (name_ : name_arg) (initial_balance : arg) : M world loc :=
  s <- match name_ with
       | StrName s => if String.eqb (strip s) EmptyString then raise ValueError else ret s
       | NotStr => raise ValueError
       end ;;
  balance_decimal <-
    try_except
      (balance_decimal <- lift (Decimal_str initial_balance) ;;
       negative <- lift (PyDecimal.lt balance_decimal PyDecimal.zero) ;;
       if negative : bool then raise ValueError else ret balance_decimal)
      except_invalid ;;
  w <- get ;;
  put {| _next_account_number := _next_account_number w + 1;
         heap := heap w ++ [ {| name := strip s; balance := balance_decimal;
                                account_number := _next_account_number w |} ] |} ;;
  ret (length (heap w)).

Definition deposit (self : loc) (amount : arg) : M world PyDecimal.t :=
  deposit_amount <-
    try_except
      (deposit_amount <- lift (Decimal_str amount) ;;
       nonpositive <- lift (PyDecimal.le deposit_amount PyDecimal.zero) ;;
       if nonpositive : bool then raise InvalidAmountError else ret deposit_amount)
      except_invalid ;;
  b <- get_balance self ;;
  b' <- lift (PyDecimal.add getcontext b deposit_amount) ;;
  set_balance self b' ;;
  get_balance self.

Definition withdraw (self : loc) (amount : arg) : M world PyDecimal.t :=
  withdrawal_amount <-
    try_except
      (withdrawal_amount <- lift (Decimal_str amount) ;;
       nonpositive <- lift (PyDecimal.le withdrawal_amount PyDecimal.zero) ;;
       if nonpositive : bool then raise InvalidAmountError else ret withdrawal_amount)
      except_invalid ;;
  b <- get_balance self ;;
  exceeds <- lift (PyDecimal.gt withdrawal_amount b) ;;
  if exceeds : bool then raise InsufficientFundsError
  else
    b <- get_balance self ;;
    b' <- lift (PyDecimal.sub getcontext b withdrawal_amount) ;;
    set_balance self b' ;;
    get_balance self.

Definition transfer_to (self : loc) (other_account : obj) (amount : arg)
  : M world (PyDecimal.t * PyDecimal.t) :=
  match other_account with
  | NotInstance => raise TypeError
  | Instance other =>
      withdraw self amount ;;
      deposit other amount ;;
      b1 <- get_balance self ;;
      b2 <- get_balance other ;;
      ret (b1, b2)
  end.

(** A call of the public interface, and a program of such calls: the
    state it leaves, whether the calls return or raise. *)
Inductive call : Type :=
| Construct (name_ : name_arg) (initial_balance : arg)
| Deposit (self : loc) (amount : arg)
| Withdraw (self : loc) (amount : arg)
| TransferTo (self : loc) (other_account : obj) (amount : arg).

Definition run_call (w : world) (c : call) : world :=
  match c with
  | Construct n b => snd (__init__ n b w)
  | Deposit self a => snd (deposit self a w)
  | Withdraw self a => snd (withdraw self a w)
  | TransferTo self o a => snd (transfer_to self o a w)
  end.

Definition run_calls (w : world) (cs : list call) : world :=
  fold_left run_call cs w.

(** The amount that [deposit] and [withdraw] accept: a Decimal for which
    [amount <= 0] is False. *)
Definition positive (amount : arg) : option PyDecimal.t :=
  match amount with
  | Numeric d =>
      match PyDecimal.le d PyDecimal.zero with
      | inr false => Some d
      | _ => None
      end
  | NotNumeric => None
  | StrRaises _ => None
  end.

(** The exception with which the [try] blocks of the class answer an
    amount they do not accept: InvalidAmountError for a Decimal that is
    not above zero,
    after the InvalidOperation of [Decimal] or after an InvalidOperation
    or TypeError of [str(amount)]; any other exception of [str(amount)]
    as it is. *)
Definition rejection (amount : arg) : exn :=
  match amount with
  | StrRaises e =>
      match e with
      | InvalidOperation | TypeError => InvalidAmountError
      | _ => e
      end
  | _ => InvalidAmountError
  end.

(** The class invariant: every balance is [>= 0]. *)
Definition balances_nonneg (w : world) : Prop :=
  Forall (fun a => PyDecimal.nonneg (balance a)) (heap w).

(** [w'] comes after [w]: the counter has not gone down and every
    instance of [w] is still there under its number. *)
Definition extends (w w' : world) : Prop :=
  _next_account_number w <= _next_account_number w' /\
  forall l a, heap w !! l = Some a ->
              exists a', heap w' !! l = Some a' /\
                         account_number a' = account_number a.

(** The account of the example: [BankAccount("Bob Smith", 100)]. *)
Definition account_100 : world :=
  run_calls initial_world
    [Construct (StrName "Bob Smith") (Numeric (PyDecimal.Finite 100 0))].

(** Two accounts constructed with 9E+999999 each, the largest exponent
    of the context. *)
Definition two_large_accounts : world :=
  run_calls initial_world
    [Construct (StrName "Alice") (Numeric (PyDecimal.Finite 9 999999));
     Construct (StrName "Bob") (Numeric (PyDecimal.Finite 9 999999))].

(** An account holding 1E-28. *)
Definition account_tiny : world :=
  run_calls initial_world
    [Construct (StrName "Alice") (Numeric (PyDecimal.Finite 1 (-28)))].

(** [self.account_number]. *)
Definition get_account_number (self : loc) : M world Z :=
  fun w =>
    match heap w !! self with
    | Some a => (inr (account_number a), w)
    | None => (inl DanglingReference, w)
    end.

(** [self == other]: False for an object of another type, else the
    equality of the two account numbers. *)
Definition __eq__ (self : loc) (other : obj) : M world bool :=
  match other with
  | NotInstance => ret false
  | Instance other =>
      n1 <- get_account_number self ;;
      n2 <- get_account_number other ;;
      ret (n1 =? n2)
  end.

(** A value of the dict that [get_account_info] returns. *)
Inductive info_value : Type :=
| InfoInt (z : Z)
| InfoStr (s : string)
| InfoDecimal (d : PyDecimal.t).

(** [self.get_account_info()]: a new dict with the three keys. *)
Definition get_account_info (self : loc) : M world (gmap string info_value) :=
  fun w =>
    match heap w !! self with
    | Some a =>
        (inr (<["account_number" := InfoInt (account_number a)]>
                (<["name" := InfoStr (name a)]>
                   (<["balance" := InfoDecimal (balance a)]> empty))), w)
    | None => (inl DanglingReference, w)
    end.

(** [lstrip] on the list of the characters of a string. *)
Fixpoint dropspace (l : list ascii) : list ascii :=
  match l with
  | [] => []
  | c :: l' => if isspace c then dropspace l' else l
  end.

(** A string that does not start with whitespace. *)
Definition headok (l : list ascii) : Prop :=
  match l with
  | [] => True
  | c :: _ => isspace c = false
  end.

(** What one call can do to the state: nothing, replace the balance of
    one instance, add a validated instance under the next number, or
    several of these in turn. *)
Inductive steps : world -> world -> Prop :=
| steps_refl w : steps w w
| steps_store w l a b :
    heap w !! l = Some a -> steps w (store w l (with_balance a b))
| steps_new w s d :
    strip s <> EmptyString -> PyDecimal.nonneg d ->
    steps w {| _next_account_number := _next_account_number w + 1;
               heap := heap w ++ [ {| name := strip s; balance := d;
                                      account_number := _next_account_number w |} ] |}
| steps_trans w1 w2 w3 : steps w1 w2 -> steps w2 w3 -> steps w1 w3.

(** Accounts are numbered from 1000 in the order of their creation. *)
Definition numbered (w : world) : Prop :=
  _next_account_number w = 1000 + Z.of_nat (length (heap w)) /\
  forall l a, heap w !! l = Some a -> account_number a = 1000 + Z.of_nat l.

(** Every name is non-empty and has no whitespace around it. *)
Definition names_stripped (w : world) : Prop :=
  Forall (fun a => name a <> EmptyString /\ strip (name a) = name a) (heap w).

End BankAccount.

(* ===================================================================== *)
(** ** Programs/P30_Array.py                                              *)
(* ===================================================================== *)

Module Array.
Import Py.
Local Open Scope py_scope.

(** An instance: [size] and [items]. *)
Record t : Type := { size : Z; items : list value }.

(** [Array(size, default_value)]; an absent [default_value] is [None]. *)
Definition __init__ (size_ : value) (default_value : value) : exn + t :=
  match size_ with
  | Int size_ =>
      if size_ <=? 0 then inl ValueError
      else
        match default_value with
        | None_ =>
            inr {| size := size_; items := replicate (Z.to_nat size_) None_ |}
        | List_ l =>
            if size_ <? Z.of_nat (length l) then inl ValueError
            else inr {| size := size_;
                        items := l ++ replicate (Z.to_nat (size_ - Z.of_nat (length l))) None_ |}
        | _ =>
            inr {| size := size_; items := replicate (Z.to_nat size_) default_value |}
        end
  | _ => inl TypeError
  end.

(** [sum(1 for item in l if item is not None)]. *)
Fixpoint count_not_None (l : list value) : Z :=
  match l with
  | [] => 0
  | item :: l' => (if is_None item then 0 else 1) + count_not_None l'
  end.

Definition get_length (self : t) : Z := count_not_None (items self).

(** [self.items[i] = x]. *)
Definition set_item (i : Z) (x : value) : M t unit :=
  self <- get ;;
  items' <- lift (setitem (items self) i x) ;;
  put {| size := size self; items := items' |}.

(** [self.items[i] = self.items[i - 1]]. *)
Definition shift (i : Z) : M t unit :=
  self <- get ;;
  x <- lift (getitem (items self) (i - 1)) ;;
  set_item i x.

Definition insert_first (element : value) : M t unit :=
  self <- get ;;
  if size self <=? get_length self then raise ArrayError
  else
    for_ (range_down (get_length self) 0) shift ;;
    set_item 0 element.

Definition insert_at_index (index_ : Z) (element : value) : M t unit :=
  self <- get ;;
  if size self <=? get_length self then raise ArrayError
  else if (index_ <? 0) || (get_length self <? index_) then raise IndexError
  else
    for_ (range_down (get_length self) index_) shift ;;
    set_item index_ element.

Definition insert_after_index (index_ : Z) (element : value) : M t unit :=
  self <- get ;;
  if size self <=? get_length self then raise ArrayError
  else if (index_ <? 0) || (get_length self <=? index_) then raise IndexError
  else insert_at_index (index_ + 1) element.

Definition insert_before_index (index_ : Z) (element : value) : M t unit :=
  self <- get ;;
  if size self <=? get_length self then raise ArrayError
  else if (index_ <? 0) || (get_length self <? index_) then raise IndexError
  else insert_at_index index_ element.

Definition delete (element : value) : M t bool :=
  self <- get ;;
  match index (items self) element with
  | Some i => set_item (Z.of_nat i) None_ ;; ret true
  | None => ret false
  end.

(** [None] for Python's [None] result, [Some i] for the position. *)
Definition search (element : value) : M t (option Z) :=
  self <- get ;;
  ret (option_map Z.of_nat (index (items self) element)).

(** The class invariant: [items] has [size] slots. *)
Definition well_formed (self : t) : Prop :=
  Z.of_nat (length (items self)) = size self.

(** The slots after [for i in range(i + k, i, -1): l[i] = l[i - 1]]:
    those before [i] and [l[i]] itself stay, the [k] slots from [i] on
    move one place to the right over slot [i + k], the rest stays. *)
Definition shifted (i k : nat) (l : list value) : list value :=
  take (i + 1) l ++ take k (drop i l) ++ drop (i + k + 1) l.

(** The same with [x] stored at [i] afterwards. *)
Definition inserted (i k : nat) (x : value) (l : list value) : list value :=
  take i l ++ x :: take k (drop i l) ++ drop (i + k + 1) l.

(** A call of a method of an instance. *)
Inductive call : Type :=
| InsertFirst (element : value)
| InsertAtIndex (index_ : Z) (element : value)
| InsertAfterIndex (index_ : Z) (element : value)
| InsertBeforeIndex (index_ : Z) (element : value)
| Delete (element : value)
| Search (element : value).

(** The exception a method has raised, if any, and the array it leaves. *)
Definition outcome {A} (r : (exn + A) * t) : option exn * t :=
  (match fst r with inl e => Some e | inr _ => None end, snd r).

Definition exec (c : call) (self : t) : option exn * t :=
  match c with
  | InsertFirst x => outcome (insert_first x self)
  | InsertAtIndex i x => outcome (insert_at_index i x self)
  | InsertAfterIndex i x => outcome (insert_after_index i x self)
  | InsertBeforeIndex i x => outcome (insert_before_index i x self)
  | Delete x => outcome (delete x self)
  | Search x => outcome (search x self)
  end.

(** The array after a program of calls, whether they return or raise. *)
Definition run_calls (self : t) (cs : list call) : t :=
  fold_left (fun a c => snd (exec c a)) cs self.

End Array.

(* ===================================================================== *)
(** ** Decimal: lemmas                                                    *)
(* ===================================================================== *)

Section DecimalFacts.
Import PyDecimal.

Lemma ndigits_fuel_bounds (fuel : nat) :
  forall n, 0 < n < 2 ^ (Z.of_nat fuel + 1) ->
            1 <= ndigits_fuel fuel n /\
            10 ^ (ndigits_fuel fuel n - 1) <= n < 10 ^ ndigits_fuel fuel n.
Proof.
  induction fuel as [| fuel IH]; intros n Hn.
  - simpl in *. split; [lia |]. change (10 ^ (1 - 1)) with 1. lia.
  - cbn [ndigits_fuel]. destruct (Z.ltb_spec n 10) as [Hlt | Hge].
    + split; [lia |]. change (10 ^ (1 - 1)) with 1. lia.
    + assert (Hpow : 2 ^ (Z.of_nat (S fuel) + 1) = 2 * 2 ^ (Z.of_nat fuel + 1)).
      { rewrite <- Z.pow_succ_r by lia. f_equal. lia. }
      assert (Hq : 0 < n / 10 < 2 ^ (Z.of_nat fuel + 1)).
      { split; [apply Z.div_str_pos; lia |].
        apply Z.div_lt_upper_bound; lia. }
      destruct (IH _ Hq) as [H1 [H2 H3]]. split; [lia |].
      replace (1 + ndigits_fuel fuel (n / 10) - 1)
        with (Z.succ (ndigits_fuel fuel (n / 10) - 1)) by lia.
      replace (1 + ndigits_fuel fuel (n / 10))
        with (Z.succ (ndigits_fuel fuel (n / 10))) by lia.
      rewrite !Z.pow_succ_r by lia.
      pose proof (Z.mul_div_le n 10).
      pose proof (Z.mod_pos_bound n 10).
      pose proof (Z.div_mod n 10). lia.
Qed.

(** A positive [n] has [ndigits n] digits. *)
Lemma ndigits_bounds (n : Z) :
  0 < n -> 1 <= ndigits n /\ 10 ^ (ndigits n - 1) <= n < 10 ^ ndigits n.
Proof.
  intros Hn. unfold ndigits. apply ndigits_fuel_bounds.
  pose proof (Z.log2_nonneg n). rewrite Z2Nat.id by assumption.
  pose proof (Z.log2_spec n Hn). lia.
Qed.

Lemma ndigits_le (n p : Z) : 0 < n < 10 ^ p -> ndigits n <= p.
Proof.
  intros Hn. destruct (ndigits_bounds n) as [_ [H _]]; [lia |].
  destruct (Z.le_gt_cases (ndigits n) p) as [| Hgt]; [assumption |].
  pose proof (Z.pow_le_mono_r 10 p (ndigits n - 1)). lia.
Qed.

(** Of two positive operands the one with the larger adjusted exponent
    is the larger. *)
Lemma adjusted_lt (c1 e1 c2 e2 : Z) :
  0 < c1 -> 0 < c2 -> adjusted c2 e2 < adjusted c1 e1 ->
  c2 * 10 ^ (e2 - Z.min e1 e2) < c1 * 10 ^ (e1 - Z.min e1 e2).
Proof.
  intros H1 H2. unfold adjusted. rewrite !Z.abs_eq by lia. intros Ha.
  set (m := Z.min e1 e2).
  destruct (ndigits_bounds c1 H1) as [Hn1 [Hl1 _]].
  destruct (ndigits_bounds c2 H2) as [Hn2 [_ Hu2]].
  assert (Hp1 : 0 < 10 ^ (e1 - m)) by (apply Z.pow_pos_nonneg; lia).
  assert (Hp2 : 0 < 10 ^ (e2 - m)) by (apply Z.pow_pos_nonneg; lia).
  assert (Hlow : 10 ^ (ndigits c1 - 1 + (e1 - m)) <= c1 * 10 ^ (e1 - m)).
  { rewrite Z.pow_add_r by lia. nia. }
  assert (Hup : c2 * 10 ^ (e2 - m) < 10 ^ (ndigits c2 + (e2 - m))).
  { rewrite Z.pow_add_r by lia. nia. }
  pose proof (Z.pow_le_mono_r 10 (ndigits c2 + (e2 - m))
                (ndigits c1 - 1 + (e1 - m))). lia.
Qed.

(** [_cmp] compares the numbers: the coefficients written at the
    smaller exponent. *)
Lemma cmp_finite_spec (c1 e1 c2 e2 : Z) :
  cmp_finite c1 e1 c2 e2
  = (c1 * 10 ^ (e1 - Z.min e1 e2) ?= c2 * 10 ^ (e2 - Z.min e1 e2)).
Proof.
  unfold cmp_finite. set (m := Z.min e1 e2).
  assert (Hp1 : 0 < 10 ^ (e1 - m)) by (apply Z.pow_pos_nonneg; lia).
  assert (Hp2 : 0 < 10 ^ (e2 - m)) by (apply Z.pow_pos_nonneg; lia).
  symmetry.
  destruct (Z.eqb_spec c1 0) as [-> | Hc1].
  { destruct (Z.compare_spec 0 c2);
      [apply Z.compare_eq_iff | apply Z.compare_lt_iff | apply Z.compare_gt_iff];
      nia. }
  destruct (Z.eqb_spec c2 0) as [-> | Hc2].
  { destruct (Z.compare_spec c1 0);
      [apply Z.compare_eq_iff | apply Z.compare_lt_iff | apply Z.compare_gt_iff];
      nia. }
  destruct (Z.ltb_spec c1 0) as [Hn1 | Hn1], (Z.ltb_spec 0 c2) as [Hn2 | Hn2];
    cbn [andb].
  - apply Z.compare_lt_iff. nia.
  - destruct (Z.ltb_spec 0 c1); [lia |]. cbn [andb].
    destruct (Z.eqb_spec (adjusted c1 e1) (adjusted c2 e2)); [reflexivity |].
    destruct (Z.ltb_spec (adjusted c2 e2) (adjusted c1 e1)) as [Ha | Ha].
    + apply Z.compare_lt_iff.
      pose proof (adjusted_lt (- c1) e1 (- c2) e2) as Hadj. fold m in Hadj.
      unfold adjusted in Hadj. rewrite !Z.abs_opp in Hadj.
      specialize (Hadj ltac:(lia) ltac:(lia) Ha). lia.
    + apply Z.compare_gt_iff.
      pose proof (adjusted_lt (- c2) e2 (- c1) e1) as Hadj.
      rewrite (Z.min_comm e2 e1) in Hadj. fold m in Hadj.
      unfold adjusted in Hadj. rewrite !Z.abs_opp in Hadj.
      specialize (Hadj ltac:(lia) ltac:(lia) ltac:(unfold adjusted in *; lia)). lia.
  - destruct (Z.ltb_spec 0 c1); [| lia]. cbn [andb].
    destruct (Z.ltb_spec c2 0); [lia |].
    destruct (Z.eqb_spec (adjusted c1 e1) (adjusted c2 e2)); [reflexivity |].
    destruct (Z.ltb_spec (adjusted c2 e2) (adjusted c1 e1)) as [Ha | Ha].
    + apply Z.compare_gt_iff.
      pose proof (adjusted_lt c1 e1 c2 e2) as Hadj. fold m in Hadj.
      specialize (Hadj ltac:(lia) ltac:(lia) Ha). lia.
    + apply Z.compare_lt_iff.
      pose proof (adjusted_lt c2 e2 c1 e1) as Hadj.
      rewrite (Z.min_comm e2 e1) in Hadj. fold m in Hadj.
      specialize (Hadj ltac:(lia) ltac:(lia) ltac:(lia)). lia.
  - destruct (Z.ltb_spec 0 c1); [| lia]. cbn [andb].
    destruct (Z.ltb_spec c2 0); [| lia].
    apply Z.compare_gt_iff. nia.
Qed.

Lemma cmp_finite_zero (c e : Z) : cmp_finite c e 0 0 = (c ?= 0).
Proof.
  unfold cmp_finite. destruct (Z.eqb_spec c 0) as [-> |]; reflexivity.
Qed.

Lemma round_half_even_nonneg (n k : Z) : 0 <= n -> 0 <= round_half_even n k.
Proof.
  intros Hn. unfold round_half_even.
  assert (0 <= n / 10 ^ k).
  { destruct (Z.eq_dec (10 ^ k) 0) as [-> | Hne].
    - now rewrite Z.div_0_r.
    - apply Z.div_pos; [assumption |]. pose proof (Z.pow_nonneg 10 k). lia. }
  destruct (_ || _); lia.
Qed.

Lemma nonneg_Finite (c e : Z) : nonneg (Finite c e) <-> 0 <= c.
Proof.
  unfold nonneg, ge, test, zero, cmp. rewrite cmp_finite_zero.
  destruct (Z.compare_spec c 0); split; intros H';
    try reflexivity; try discriminate; lia.
Qed.

Lemma nonneg_Infinity (s : bool) : nonneg (Infinity s) <-> s = false.
Proof. destruct s; unfold nonneg; cbv; split; congruence. Qed.

Lemma nonneg_NaN : ~ nonneg NaN.
Proof. discriminate. Qed.

(** [not (x < 0)] and [x >= 0] agree. *)
Lemma lt_zero_false (x : t) : lt x zero = inr false -> nonneg x.
Proof.
  unfold nonneg, lt, ge, test.
  destruct (cmp x zero) as [e | []]; congruence.
Qed.

(** [not (x <= 0)] gives [x >= 0]. *)
Lemma le_zero_false (x : t) : le x zero = inr false -> nonneg x.
Proof.
  unfold nonneg, le, ge, test.
  destruct (cmp x zero) as [e | []]; congruence.
Qed.

Lemma le_zero_false_Finite (c e : Z) :
  le (Finite c e) zero = inr false <-> 0 < c.
Proof.
  unfold le, test, zero, cmp. rewrite cmp_finite_zero.
  destruct (Z.compare_spec c 0); split; intros H';
    try reflexivity; try discriminate; lia.
Qed.

(** Rounding keeps the sign, and can fail with Overflow only. *)
Lemma fix_nonneg (ctx : Context) (c e : Z) :
  0 <= c ->
  match fix_ ctx c e with
  | inr r => nonneg r
  | inl err => err = Py.Overflow
  end.
Proof.
  intros Hc. unfold fix_.
  destruct (Z.eqb_spec c 0) as [-> | Hne]; [now apply nonneg_Finite |].
  destruct (Etop ctx <? _); [reflexivity |].
  destruct (e <? _); [| now apply nonneg_Finite].
  pose proof (round_half_even_nonneg (Z.abs c)
                (Z.max (ndigits (Z.abs c) + e - prec ctx) (Etiny ctx) - e)
                (Z.abs_nonneg c)) as Hq.
  destruct (prec ctx <? _).
  - destruct (Etop ctx <? _); [reflexivity |].
    apply nonneg_Finite.
    pose proof (Z.div_pos _ 10 Hq ltac:(lia)). nia.
  - destruct (Etop ctx <? _); [reflexivity |].
    apply nonneg_Finite. nia.
Qed.

(** A coefficient of at most [prec] digits at an exponent within
    [Etiny, Etop] is kept as it is. *)
Lemma fix_exact (ctx : Context) (c e : Z) :
  1 <= prec ctx ->
  0 <= c < 10 ^ prec ctx -> Etiny ctx <= e <= Etop ctx ->
  fix_ ctx c e = inr (Finite c e).
Proof.
  intros Hp Hc He. unfold fix_, Etop, Etiny in *.
  destruct (Z.eqb_spec c 0) as [-> | Hne].
  - do 2 f_equal. lia.
  - assert (Hd : ndigits (Z.abs c) <= prec ctx)
      by (apply ndigits_le; rewrite Z.abs_eq; lia).
    destruct (Z.ltb_spec (Emax ctx - prec ctx + 1)
                (ndigits (Z.abs c) + e - prec ctx)); [lia |].
    destruct (Z.ltb_spec e
                (Z.max (ndigits (Z.abs c) + e - prec ctx)
                   (Emin ctx - prec ctx + 1))); [lia | reflexivity].
Qed.

Lemma add_finite_nonneg (ctx : Context) (c1 e1 c2 e2 : Z) :
  0 <= c1 -> 0 <= c2 ->
  match add_finite ctx c1 e1 c2 e2 with
  | inr r => nonneg r
  | inl err => err = Py.Overflow
  end.
Proof.
  intros H1 H2. unfold add_finite.
  pose proof (Z.pow_nonneg 10 (e1 - Z.min e1 e2)).
  pose proof (Z.pow_nonneg 10 (e2 - Z.min e1 e2)).
  pose proof (Z.pow_nonneg 10 (e2 - Z.max (Z.min e1 e2) (e2 - prec ctx - 1))).
  pose proof (Z.pow_nonneg 10 (e1 - Z.max (Z.min e1 e2) (e1 - prec ctx - 1))).
  destruct (_ && _); [| destruct (c1 =? 0); [| destruct (c2 =? 0)]];
    apply fix_nonneg; nia.
Qed.

(** The sum of two balances-to-be is one, unless it overflows. *)
Lemma add_nonneg (ctx : Context) (x y : t) :
  nonneg x -> nonneg y ->
  match add ctx x y with
  | inr r => nonneg r
  | inl err => err = Py.Overflow
  end.
Proof.
  intros Hx Hy.
  destruct x as [c1 e1 | [] |], y as [c2 e2 | [] |];
    try discriminate; try exact Hx; try exact Hy.
  apply nonneg_Finite in Hx, Hy. now apply add_finite_nonneg.
Qed.

Lemma sub_finite_nonneg (ctx : Context) (c1 e1 c2 e2 : Z) :
  0 <= c1 ->
  c2 * 10 ^ (e2 - Z.min e1 e2) <= c1 * 10 ^ (e1 - Z.min e1 e2) ->
  match add_finite ctx c1 e1 (- c2) e2 with
  | inr r => nonneg r
  | inl err => err = Py.Overflow
  end.
Proof.
  intros H1 Hle. unfold add_finite.
  pose proof (Z.pow_pos_nonneg 10 (e1 - Z.min e1 e2)).
  pose proof (Z.pow_pos_nonneg 10 (e2 - Z.min e1 e2)).
  pose proof (Z.pow_pos_nonneg 10 (e2 - Z.max (Z.min e1 e2) (e2 - prec ctx - 1))).
  pose proof (Z.pow_pos_nonneg 10 (e1 - Z.max (Z.min e1 e2) (e1 - prec ctx - 1))).
  destruct (Z.eqb_spec c1 0), (Z.eqb_spec (- c2) 0); cbn [andb];
    apply fix_nonneg; nia.
Qed.

(** [x - y] of a balance [x] and an amount [y] that does not exceed it
    is a balance again, when it is defined. *)
Lemma sub_nonneg (ctx : Context) (x y r : t) :
  nonneg x -> gt y x = inr false -> sub ctx x y = inr r -> nonneg r.
Proof.
  intros Hx Hgt Hr.
  destruct x as [c1 e1 | [] |], y as [c2 e2 | [] |];
    try discriminate; simpl in Hr;
    try (injection Hr as <-; reflexivity).
  apply nonneg_Finite in Hx.
  unfold gt, test, cmp in Hgt. rewrite cmp_finite_spec in Hgt.
  rewrite (Z.min_comm e2 e1) in Hgt.
  pose proof (sub_finite_nonneg ctx c1 e1 c2 e2 Hx) as H.
  rewrite Hr in H. apply H.
  destruct (Z.compare_spec (c2 * 10 ^ (e2 - Z.min e1 e2))
              (c1 * 10 ^ (e1 - Z.min e1 e2))); try discriminate; lia.
Qed.

End DecimalFacts.

Section DecimalExact.
Import PyDecimal.

(** When the sum of a balance [cb * 10^eb] and an amount [cd * 10^ed],
    written at the smaller exponent [e], has no more than [prec] digits
    and [e] is within range, the addition is exact; subtracting the
    amount again is exact too and gives a Decimal equal to the balance. *)
Lemma add_then_sub_exact (ctx : Context) (cb eb cd ed : Z) :
  1 <= prec ctx -> 0 <= cb -> 0 < cd ->
  cb * 10 ^ (eb - Z.min eb ed) + cd * 10 ^ (ed - Z.min eb ed) < 10 ^ prec ctx ->
  Etiny ctx <= Z.min eb ed <= Etop ctx ->
  exists s : Z,
    s = cb * 10 ^ (eb - Z.min eb ed) + cd * 10 ^ (ed - Z.min eb ed) /\
    add ctx (Finite cb eb) (Finite cd ed) = inr (Finite s (Z.min eb ed)) /\
    gt (Finite cd ed) (Finite s (Z.min eb ed)) = inr false /\
    sub ctx (Finite s (Z.min eb ed)) (Finite cd ed)
    = inr (Finite (cb * 10 ^ (eb - Z.min eb ed)) (Z.min eb ed)) /\
    cmp (Finite (cb * 10 ^ (eb - Z.min eb ed)) (Z.min eb ed)) (Finite cb eb)
    = inr Eq.
Proof.
  intros Hp Hb Hd Hsum He.
  set (e := Z.min eb ed) in *.
  assert (HB : 0 < 10 ^ (eb - e)) by (apply Z.pow_pos_nonneg; lia).
  assert (HD : 0 < 10 ^ (ed - e)) by (apply Z.pow_pos_nonneg; lia).
  set (B := cb * 10 ^ (eb - e)) in *. set (D := cd * 10 ^ (ed - e)) in *.
  assert (HB0 : 0 <= B) by (unfold B; nia).
  assert (HD0 : 10 ^ (ed - e) <= D) by (unfold D; nia).
  assert (Hed : ed - e < prec ctx).
  { apply (Z.pow_lt_mono_r_iff 10); lia. }
  assert (Hmin : Z.min e ed = e) by lia.
  assert (H0 : 10 ^ (e - e) = 1) by (now rewrite Z.sub_diag).
  exists (B + D). split; [reflexivity |]. split; [| split; [| split]].
  - cbn [add]. unfold add_finite. fold e.
    destruct (Z.eqb_spec cb 0) as [Hcb | Hcb];
      destruct (Z.eqb_spec cd 0) as [Hcd | Hcd]; try lia; cbn [andb].
    + replace (Z.max e (ed - prec ctx - 1)) with e by lia. fold D.
      replace (B + D) with D by (unfold B; rewrite Hcb; lia).
      apply fix_exact; lia.
    + fold B D. apply fix_exact; lia.
  - unfold gt, test, cmp. rewrite cmp_finite_spec.
    rewrite (Z.min_comm ed e), Hmin, H0.
    fold D. destruct (Z.compare_spec D ((B + D) * 1)); try reflexivity; lia.
  - unfold sub. cbn [copy_negate add]. unfold add_finite.
    rewrite Hmin, H0.
    destruct (Z.eqb_spec (B + D) 0); [lia |].
    destruct (Z.eqb_spec (- cd) 0); [lia |]. cbn [andb].
    replace ((B + D) * 1 + - cd * 10 ^ (ed - e)) with B by (unfold D; lia).
    apply fix_exact; lia.
  - unfold cmp. rewrite cmp_finite_spec.
    replace (Z.min e eb) with e by lia. rewrite H0. fold B.
    rewrite Z.mul_1_r. now rewrite Z.compare_refl.
Qed.

End DecimalExact.

(* ===================================================================== *)
(** ** BankAccount: lemmas                                                *)
(* ===================================================================== *)

Section BankFacts.
Import Py BankAccount.
Local Open Scope py_scope.

(** The [try] block of [deposit] and [withdraw]. *)
Lemma validate_amount (amount : arg) (w : world) :
  try_except
    (d <- lift (Decimal_str amount) ;;
     nonpositive <- lift (PyDecimal.le d PyDecimal.zero) ;;
     if nonpositive : bool then raise InvalidAmountError else ret d)
    except_invalid w
  = match positive amount with
    | Some d => (inr d, w)
    | None => (inl (rejection amount), w)
    end.
Proof.
  destruct amount as [[c e | s |] | | e];
    unfold positive, try_except, bind, lift;
    cbn [Decimal_str rejection]; try reflexivity.
  - unfold PyDecimal.le, PyDecimal.test, PyDecimal.zero, PyDecimal.cmp.
    now destruct (PyDecimal.cmp_finite c e 0 0).
  - now destruct s.
  - now destruct e.
Qed.

Lemma positive_nonneg (amount : arg) (d : PyDecimal.t) :
  positive amount = Some d -> PyDecimal.nonneg d.
Proof.
  destruct amount as [d' | | e]; [| discriminate | discriminate].
  unfold positive.
  destruct (PyDecimal.le d' PyDecimal.zero) as [| []] eqn:E; try discriminate.
  intros [= <-]. now apply le_zero_false.
Qed.

Lemma deposit_eq (self : loc) (amount : arg) (w : world) :
  deposit self amount w
  = match positive amount with
    | None => (inl (rejection amount), w)
    | Some d =>
        match heap w !! self with
        | None => (inl DanglingReference, w)
        | Some a =>
            match PyDecimal.add getcontext (balance a) d with
            | inl e => (inl e, w)
            | inr b => (inr b, store w self (with_balance a b))
            end
        end
    end.
Proof.
  unfold deposit. unfold bind at 1. rewrite validate_amount.
  destruct (positive amount) as [d |]; [| reflexivity].
  unfold bind, get_balance, set_balance, lift.
  destruct (heap w !! self) as [a |] eqn:Ha; [| reflexivity].
  destruct (PyDecimal.add getcontext (balance a) d) as [e | b]; [reflexivity |].
  rewrite Ha. cbn [store heap].
  now rewrite list_lookup_insert_eq by (eapply lookup_lt_Some; eassumption).
Qed.

Lemma withdraw_eq (self : loc) (amount : arg) (w : world) :
  withdraw self amount w
  = match positive amount with
    | None => (inl (rejection amount), w)
    | Some d =>
        match heap w !! self with
        | None => (inl DanglingReference, w)
        | Some a =>
            match PyDecimal.gt d (balance a) with
            | inl e => (inl e, w)
            | inr true => (inl InsufficientFundsError, w)
            | inr false =>
                match PyDecimal.sub getcontext (balance a) d with
                | inl e => (inl e, w)
                | inr b => (inr b, store w self (with_balance a b))
                end
            end
        end
    end.
Proof.
  unfold withdraw. unfold bind at 1. rewrite validate_amount.
  destruct (positive amount) as [d |]; [| reflexivity].
  unfold bind, get_balance, set_balance, lift, raise.
  destruct (heap w !! self) as [a |] eqn:Ha; [| reflexivity].
  destruct (PyDecimal.gt d (balance a)) as [e | []]; try reflexivity.
  rewrite Ha.
  destruct (PyDecimal.sub getcontext (balance a) d) as [e | b]; [reflexivity |].
  rewrite Ha. cbn [store heap].
  now rewrite list_lookup_insert_eq by (eapply lookup_lt_Some; eassumption).
Qed.

(** Constructing: validation, then the new instance at the end of the
    heap and the counter one up. *)
Lemma init_eq (name_ : name_arg) (initial_balance : arg) (w : world) :
  __init__ name_ initial_balance w
  = match name_ with
    | NotStr => (inl ValueError, w)
    | StrName s =>
        if String.eqb (strip s) EmptyString then (inl ValueError, w)
        else
          match initial_balance with
          | NotNumeric | StrRaises _ => (inl (rejection initial_balance), w)
          | Numeric d =>
              match PyDecimal.lt d PyDecimal.zero with
              | inl _ => (inl InvalidAmountError, w)
              | inr true => (inl ValueError, w)
              | inr false =>
                  (inr (length (heap w)),
                   {| _next_account_number := _next_account_number w + 1;
                      heap := heap w ++ [ {| name := strip s; balance := d;
                                             account_number := _next_account_number w |} ] |})
              end
          end
    end.
Proof.
  unfold __init__. destruct name_ as [s |]; [| reflexivity].
  unfold bind at 1. destruct (String.eqb (strip s) EmptyString); [reflexivity |].
  unfold ret at 1. unfold bind at 1.
  destruct initial_balance as [[c e | sg |] | | e];
    unfold try_except, bind, lift, raise, get, put, ret;
    cbn [Decimal_str rejection]; try reflexivity.
  - unfold PyDecimal.lt, PyDecimal.test, PyDecimal.zero, PyDecimal.cmp.
    now destruct (PyDecimal.cmp_finite c e 0 0).
  - now destruct sg.
  - now destruct e.
Qed.

End BankFacts.

Section BankInvariants.
Import Py BankAccount.
Local Open Scope py_scope.

Lemma positive_Some (amount : arg) (d : PyDecimal.t) :
  positive amount = Some d <->
  Decimal_str amount = inr d /\ PyDecimal.le d PyDecimal.zero = inr false.
Proof.
  destruct amount as [d' | | e0]; simpl.
  - split.
    + destruct (PyDecimal.le d' PyDecimal.zero) as [e | []] eqn:E;
        try discriminate.
      intros [= <-]. now split.
    + intros [[= ->] H]. now rewrite H.
  - split; [discriminate | intros [H _]; discriminate].
  - split; [discriminate | intros [H _]; discriminate].
Qed.

Lemma store_nonneg (w : world) (l : loc) (a : BankAccount.t) :
  balances_nonneg w -> PyDecimal.nonneg (balance a) ->
  balances_nonneg (store w l a).
Proof. intros Hw Ha. now apply Forall_insert. Qed.

Lemma lookup_nonneg (w : world) (l : loc) (a : BankAccount.t) :
  balances_nonneg w -> heap w !! l = Some a -> PyDecimal.nonneg (balance a).
Proof. intros Hw Ha. exact (proj1 (Forall_lookup _ _) Hw l a Ha). Qed.

Lemma init_nonneg (n : name_arg) (b : arg) (w : world) :
  balances_nonneg w -> balances_nonneg (snd (__init__ n b w)).
Proof.
  intros Hw. rewrite init_eq.
  destruct n as [s |]; [| exact Hw].
  destruct (String.eqb (strip s) EmptyString); [exact Hw |].
  destruct b as [d | | e0]; [| exact Hw | exact Hw].
  destruct (PyDecimal.lt d PyDecimal.zero) as [e | []] eqn:E; try exact Hw.
  apply Forall_app. split; [exact Hw |].
  apply Forall_singleton. now apply lt_zero_false.
Qed.

Lemma deposit_nonneg (self : loc) (amount : arg) (w : world) :
  balances_nonneg w -> balances_nonneg (snd (deposit self amount w)).
Proof.
  intros Hw. rewrite deposit_eq.
  destruct (positive amount) as [d |] eqn:Hd; [| exact Hw].
  destruct (heap w !! self) as [a |] eqn:Ha; [| exact Hw].
  pose proof (add_nonneg getcontext (balance a) d
                (lookup_nonneg _ _ _ Hw Ha) (positive_nonneg _ _ Hd)) as H.
  destruct (PyDecimal.add getcontext (balance a) d); [exact Hw |].
  now apply store_nonneg.
Qed.

Lemma withdraw_nonneg (self : loc) (amount : arg) (w : world) :
  balances_nonneg w -> balances_nonneg (snd (withdraw self amount w)).
Proof.
  intros Hw. rewrite withdraw_eq.
  destruct (positive amount) as [d |] eqn:Hd; [| exact Hw].
  destruct (heap w !! self) as [a |] eqn:Ha; [| exact Hw].
  destruct (PyDecimal.gt d (balance a)) as [e | []] eqn:Hgt; try exact Hw.
  destruct (PyDecimal.sub getcontext (balance a) d) as [e | b] eqn:Hs;
    [exact Hw |].
  apply store_nonneg; [exact Hw |].
  exact (sub_nonneg _ _ _ _ (lookup_nonneg _ _ _ Hw Ha) Hgt Hs).
Qed.

(** The state a transfer leaves is the one its [withdraw] leaves, or the
    one the [deposit] after it leaves. *)
Lemma transfer_snd (self other : loc) (amount : arg) (w : world) :
  snd (transfer_to self (Instance other) amount w)
  = match withdraw self amount w with
    | (inl _, w1) => w1
    | (inr _, w1) => snd (deposit other amount w1)
    end.
Proof.
  unfold transfer_to, bind.
  destruct (withdraw self amount w) as [[e | b] w1]; [reflexivity |].
  destruct (deposit other amount w1) as [[e | b'] w2]; [reflexivity |].
  unfold get_balance, ret.
  now destruct (heap w2 !! self), (heap w2 !! other).
Qed.

Lemma transfer_eq (self other : loc) (amount : arg) (w : world) :
  transfer_to self (Instance other) amount w
  = match withdraw self amount w with
    | (inl e, w1) => (inl e, w1)
    | (inr _, w1) =>
        match deposit other amount w1 with
        | (inl e, w2) => (inl e, w2)
        | (inr _, w2) =>
            match heap w2 !! self, heap w2 !! other with
            | Some x, Some y => (inr (balance x, balance y), w2)
            | _, _ => (inl DanglingReference, w2)
            end
        end
    end.
Proof.
  unfold transfer_to, bind.
  destruct (withdraw self amount w) as [[e | b] w1]; [reflexivity |].
  destruct (deposit other amount w1) as [[e | b'] w2]; [reflexivity |].
  unfold get_balance, ret.
  now destruct (heap w2 !! self), (heap w2 !! other).
Qed.

Lemma transfer_nonneg (self : loc) (other : obj) (amount : arg) (w : world) :
  balances_nonneg w -> balances_nonneg (snd (transfer_to self other amount w)).
Proof.
  intros Hw. destruct other as [other |]; [| exact Hw].
  rewrite transfer_snd.
  pose proof (withdraw_nonneg self amount w Hw) as H1.
  destruct (withdraw self amount w) as [[e | b] w1]; [exact H1 |].
  now apply deposit_nonneg.
Qed.

Lemma run_call_nonneg (w : world) (c : call) :
  balances_nonneg w -> balances_nonneg (run_call w c).
Proof.
  destruct c; cbn [run_call];
    auto using init_nonneg, deposit_nonneg, withdraw_nonneg, transfer_nonneg.
Qed.

Lemma run_calls_nonneg (cs : list call) :
  forall w, balances_nonneg w -> balances_nonneg (run_calls w cs).
Proof.
  induction cs as [| c cs IH]; intros w Hw; [exact Hw |].
  apply IH. now apply run_call_nonneg.
Qed.

Lemma extends_refl (w : world) : extends w w.
Proof. split; [lia | eauto]. Qed.

Lemma extends_trans (w1 w2 w3 : world) :
  extends w1 w2 -> extends w2 w3 -> extends w1 w3.
Proof.
  intros [H1 K1] [H2 K2]. split; [lia |].
  intros l a Ha. destruct (K1 l a Ha) as (a' & Ha' & E1).
  destruct (K2 l a' Ha') as (a'' & Ha'' & E2).
  exists a''. split; [assumption | congruence].
Qed.

Lemma extends_store (w : world) (l : loc) (a : BankAccount.t) (b : PyDecimal.t) :
  heap w !! l = Some a -> extends w (store w l (with_balance a b)).
Proof.
  intros Ha. split; [simpl; lia |].
  intros l' a' Ha'. simpl. destruct (decide (l = l')) as [<- | Hne].
  - rewrite list_lookup_insert_eq by (eapply lookup_lt_Some; eassumption).
    rewrite Ha in Ha'. injection Ha' as <-.
    eexists. split; reflexivity.
  - rewrite list_lookup_insert_ne by assumption. eauto.
Qed.

Lemma extends_init (n : name_arg) (b : arg) (w : world) :
  extends w (snd (__init__ n b w)).
Proof.
  rewrite init_eq.
  destruct n as [s |]; [| apply extends_refl].
  destruct (String.eqb (strip s) EmptyString); [apply extends_refl |].
  destruct b as [d | | e0]; [| apply extends_refl | apply extends_refl].
  destruct (PyDecimal.lt d PyDecimal.zero) as [e | []];
    try apply extends_refl.
  split; [simpl; lia |].
  intros l a Ha. exists a. split; [| reflexivity].
  simpl. now apply lookup_app_l_Some.
Qed.

Lemma extends_deposit (self : loc) (amount : arg) (w : world) :
  extends w (snd (deposit self amount w)).
Proof.
  rewrite deposit_eq.
  destruct (positive amount) as [d |]; [| apply extends_refl].
  destruct (heap w !! self) as [a |] eqn:Ha; [| apply extends_refl].
  destruct (PyDecimal.add getcontext (balance a) d);
    [apply extends_refl | now apply extends_store].
Qed.

Lemma extends_withdraw (self : loc) (amount : arg) (w : world) :
  extends w (snd (withdraw self amount w)).
Proof.
  rewrite withdraw_eq.
  destruct (positive amount) as [d |]; [| apply extends_refl].
  destruct (heap w !! self) as [a |] eqn:Ha; [| apply extends_refl].
  destruct (PyDecimal.gt d (balance a)) as [e | []]; try apply extends_refl.
  destruct (PyDecimal.sub getcontext (balance a) d);
    [apply extends_refl | now apply extends_store].
Qed.

Lemma extends_run_call (w : world) (c : call) : extends w (run_call w c).
Proof.
  destruct c as [n b | self a | self a | self [other |] a]; cbn [run_call].
  - apply extends_init.
  - apply extends_deposit.
  - apply extends_withdraw.
  - rewrite transfer_snd.
    pose proof (extends_withdraw self a w) as H.
    destruct (withdraw self a w) as [[e | b] w1]; [exact H |].
    eapply extends_trans; [exact H | apply extends_deposit].
  - apply extends_refl.
Qed.

Lemma extends_run_calls (cs : list call) :
  forall w, extends w (run_calls w cs).
Proof.
  induction cs as [| c cs IH]; intros w; [apply extends_refl |].
  eapply extends_trans; [apply extends_run_call | apply IH].
Qed.

(** A construction that returns: where the instance is, its number, and
    the counter afterwards. *)
Lemma init_returns (n : name_arg) (b : arg) (w w' : world) (l : loc) :
  __init__ n b w = (inr l, w') ->
  exists a, heap w' !! l = Some a /\
            account_number a = _next_account_number w /\
            _next_account_number w' = _next_account_number w + 1.
Proof.
  rewrite init_eq.
  destruct n as [s |]; [| discriminate].
  destruct (String.eqb (strip s) EmptyString); [discriminate |].
  destruct b as [d | | e0]; [| discriminate | discriminate].
  destruct (PyDecimal.lt d PyDecimal.zero) as [e | []]; try discriminate.
  intros [= <- <-]. eexists. split.
  - simpl. rewrite lookup_app_r by lia. now rewrite Nat.sub_diag.
  - split; reflexivity.
Qed.

(** A construction that raises leaves the class and the heap alone. *)
Lemma init_raises (n : name_arg) (b : arg) (w w' : world) (e : exn) :
  __init__ n b w = (inl e, w') -> w' = w.
Proof.
  rewrite init_eq.
  destruct n as [s |]; [| congruence].
  destruct (String.eqb (strip s) EmptyString); [congruence |].
  destruct b as [d | | e0]; [| congruence | congruence].
  destruct (PyDecimal.lt d PyDecimal.zero) as [e' | []]; congruence.
Qed.

End BankInvariants.

(* ===================================================================== *)
(** ** BankAccount: the specified properties                              *)
(* ===================================================================== *)

Section BankTheorems.
Import Py BankAccount.
Local Open Scope py_scope.

(** C1. On an account whose balance is [>= 0], a [withdraw] of an amount
    that parses as a Decimal above zero and exceeds the balance raises
    InsufficientFundsError and leaves everything as it was; and whatever
    the amount, and whether the call returns or raises, the balance is
    [>= 0] afterwards. *)
Theorem withdraw_insufficient_funds
  (w : world) (self : loc) (a : BankAccount.t) (amount : arg) :
  heap w !! self = Some a -> PyDecimal.nonneg (balance a) ->
  (forall d : PyDecimal.t,
      Decimal_str amount = inr d ->
      PyDecimal.le d PyDecimal.zero = inr false ->
      PyDecimal.gt d (balance a) = inr true ->
      withdraw self amount w = (inl InsufficientFundsError, w)) /\
  (exists a' : BankAccount.t,
      heap (snd (withdraw self amount w)) !! self = Some a' /\
      PyDecimal.nonneg (balance a')).
Proof.
  intros Ha Hb. rewrite withdraw_eq. split.
  - intros d Hd Hpos Hgt.
    rewrite (proj2 (positive_Some amount d) (conj Hd Hpos)), Ha.
    now rewrite Hgt.
  - destruct (positive amount) as [d |]; [| now exists a].
    rewrite Ha.
    destruct (PyDecimal.gt d (balance a)) as [e | []] eqn:Hgt;
      try (now exists a).
    destruct (PyDecimal.sub getcontext (balance a) d) as [e | b] eqn:Hs;
      [now exists a |].
    exists (with_balance a b). split.
    + simpl. apply list_lookup_insert_eq. eapply lookup_lt_Some; eassumption.
    + exact (sub_nonneg _ _ _ _ Hb Hgt Hs).
Qed.

Lemma withdraw_insufficient_funds_witness :
  heap account_100 !! 0%nat
  = Some {| name := "Bob Smith"; balance := PyDecimal.Finite 100 0;
            account_number := 1000 |} /\
  PyDecimal.nonneg (PyDecimal.Finite 100 0) /\
  withdraw 0%nat (Numeric (PyDecimal.Finite 1500 0)) account_100
  = (inl InsufficientFundsError, account_100).
Proof.
  split; [reflexivity |]. split; [reflexivity |].
  apply (proj1 (withdraw_insufficient_funds account_100 0%nat _
                  (Numeric (PyDecimal.Finite 1500 0))
                  eq_refl eq_refl) (PyDecimal.Finite 1500 0));
    reflexivity.
Defined.

(** The ways in which a transfer between two distinct accounts with
    balances [>= 0] can end: it returns the pair of new balances, the
    sender's being [balance - amount] and the receiver's
    [balance + amount] as the decimal context computes them; or its
    [withdraw] raises and nothing has changed; or, the [withdraw] done,
    the [deposit] raises Overflow and only the sender has changed. The
    [deposit] never rejects the amount that [withdraw] accepted. *)
Lemma transfer_to_outcomes
  (w : world) (self other : loc) (a1 a2 : BankAccount.t) (amount : arg) :
  self <> other ->
  heap w !! self = Some a1 -> heap w !! other = Some a2 ->
  PyDecimal.nonneg (balance a1) -> PyDecimal.nonneg (balance a2) ->
  (exists d b1 b2 : PyDecimal.t,
      positive amount = Some d /\
      PyDecimal.sub getcontext (balance a1) d = inr b1 /\
      PyDecimal.add getcontext (balance a2) d = inr b2 /\
      transfer_to self (Instance other) amount w
      = (inr (b1, b2),
         store (store w self (with_balance a1 b1)) other (with_balance a2 b2)))
  \/
  (exists e : exn,
      transfer_to self (Instance other) amount w = (inl e, w) /\
      withdraw self amount w = (inl e, w))
  \/
  (exists d b1 : PyDecimal.t,
      positive amount = Some d /\
      PyDecimal.sub getcontext (balance a1) d = inr b1 /\
      PyDecimal.add getcontext (balance a2) d = inl Overflow /\
      transfer_to self (Instance other) amount w
      = (inl Overflow, store w self (with_balance a1 b1))).
Proof.
  intros Hne H1 H2 Hb1 Hb2.
  rewrite transfer_eq, withdraw_eq.
  destruct (positive amount) as [d |] eqn:Hd;
    [| right; left; eexists; split; reflexivity].
  rewrite H1.
  destruct (PyDecimal.gt d (balance a1)) as [e | []] eqn:Hgt;
    try (right; left; eexists; split; reflexivity).
  destruct (PyDecimal.sub getcontext (balance a1) d) as [e | b1] eqn:Hs;
    [right; left; eexists; split; reflexivity |].
  assert (H2' : heap (store w self (with_balance a1 b1)) !! other = Some a2).
  { simpl. now rewrite list_lookup_insert_ne. }
  rewrite deposit_eq, Hd, H2'.
  pose proof (add_nonneg getcontext (balance a2) d Hb2
                (positive_nonneg _ _ Hd)) as Hadd.
  destruct (PyDecimal.add getcontext (balance a2) d) as [e | b2] eqn:Ha.
  - right; right. subst e. exists d, b1. repeat split; assumption || reflexivity.
  - left. exists d, b1, b2. repeat split; try assumption.
    cbn [store heap].
    rewrite list_lookup_insert_ne by congruence.
    rewrite list_lookup_insert_eq by (eapply lookup_lt_Some; eassumption).
    rewrite list_lookup_insert_eq
      by (rewrite length_insert; eapply lookup_lt_Some; eassumption).
    reflexivity.
Qed.

(** C2. The code breaks the claim at this input: both accounts are
    constructed with 9E+999999 and the sender transfers 9E+999999. The
    [withdraw] returns and leaves the sender at 0E+999999; the
    [deposit] then raises Overflow, the sum exceeding Emax, and the
    receiver is as before. The call has failed after changing exactly
    one of the two accounts, where a failing [withdraw] or [deposit]
    alone changes nothing. *)
Theorem transfer_to_partial_failure :
  let amount := Numeric (PyDecimal.Finite 9 999999) in
  let r := transfer_to 0%nat (Instance 1%nat) amount two_large_accounts in
  fst (withdraw 0%nat amount two_large_accounts) = inr (PyDecimal.Finite 0 999999) /\
  fst (deposit 1%nat amount (snd (withdraw 0%nat amount two_large_accounts)))
  = inl Overflow /\
  fst r = inl Overflow /\
  balance <$> heap two_large_accounts !! 0%nat = Some (PyDecimal.Finite 9 999999) /\
  balance <$> heap (snd r) !! 0%nat = Some (PyDecimal.Finite 0 999999) /\
  heap (snd r) !! 1%nat = heap two_large_accounts !! 1%nat.
Proof. vm_compute. repeat split. Qed.

(** C3. Whatever calls are made on the class, constructions, deposits,
    withdrawals and transfers between any accounts, in any order and
    whether they return or raise, every account that exists afterwards
    has a balance [>= 0]. Every account comes from a construction and
    every state is the one after such a sequence, so this holds right
    after each construction and after every later call. *)
Theorem balance_never_negative (cs : list call) :
  Forall (fun a => PyDecimal.ge (balance a) PyDecimal.zero = inr true)
         (heap (run_calls initial_world cs)).
Proof.
  apply (run_calls_nonneg cs initial_world). constructor.
Qed.

(** C4, as amended. Let the balance be [cb * 10^eb >= 0] and the amount
    [cd * 10^ed > 0]. When their sum, written at the smaller of the two
    exponents, has at most 28 digits, and that exponent lies between
    Etiny and Etop of the context, [deposit] and then [withdraw] of the
    amount both return and the final balance is equal ([==]) to the
    original one. *)
Theorem deposit_then_withdraw
  (w : world) (self : loc) (a : BankAccount.t) (cb eb cd ed : Z) :
  heap w !! self = Some a -> balance a = PyDecimal.Finite cb eb ->
  0 <= cb -> 0 < cd ->
  cb * 10 ^ (eb - Z.min eb ed) + cd * 10 ^ (ed - Z.min eb ed) < 10 ^ 28 ->
  PyDecimal.Etiny getcontext <= Z.min eb ed <= PyDecimal.Etop getcontext ->
  exists (b1 b2 : PyDecimal.t) (w1 w2 : world),
    deposit self (Numeric (PyDecimal.Finite cd ed)) w = (inr b1, w1) /\
    withdraw self (Numeric (PyDecimal.Finite cd ed)) w1 = (inr b2, w2) /\
    balance <$> heap w2 !! self = Some b2 /\
    PyDecimal.cmp b2 (balance a) = inr Eq.
Proof.
  intros Ha Hbal Hb Hd Hsum He.
  destruct (add_then_sub_exact getcontext cb eb cd ed) as (s & _ & Hadd & Hgt & Hsub & Hcmp);
    try assumption; [simpl; lia |].
  assert (Hpos : positive (Numeric (PyDecimal.Finite cd ed))
                 = Some (PyDecimal.Finite cd ed)).
  { unfold positive.
    now rewrite (proj2 (le_zero_false_Finite cd ed) Hd). }
  assert (Hlt : (self < length (heap w))%nat)
    by (eapply lookup_lt_Some; eassumption).
  do 4 eexists. split; [| split; [| split]].
  - rewrite deposit_eq, Hpos, Ha, Hbal, Hadd. reflexivity.
  - rewrite withdraw_eq, Hpos. cbn [store heap].
    rewrite list_lookup_insert_eq by assumption.
    cbn [with_balance balance]. rewrite Hgt, Hsub. reflexivity.
  - cbn [store heap]. rewrite list_lookup_insert_eq
      by (rewrite length_insert; assumption).
    reflexivity.
  - rewrite Hbal. exact Hcmp.
Qed.

Lemma deposit_then_withdraw_witness :
  exists a : BankAccount.t,
    heap account_100 !! 0%nat = Some a /\
    balance a = PyDecimal.Finite 100 0 /\
    0 <= 100 /\ 0 < 50 /\
    100 * 10 ^ (0 - Z.min 0 (-2)) + 50 * 10 ^ (-2 - Z.min 0 (-2)) < 10 ^ 28 /\
    exists (b1 b2 : PyDecimal.t) (w1 w2 : world),
      deposit 0%nat (Numeric (PyDecimal.Finite 50 (-2))) account_100 = (inr b1, w1) /\
      withdraw 0%nat (Numeric (PyDecimal.Finite 50 (-2))) w1 = (inr b2, w2) /\
      balance <$> heap w2 !! 0%nat = Some b2 /\
      PyDecimal.cmp b2 (balance a) = inr Eq.
Proof.
  eexists. split; [reflexivity |]. split; [reflexivity |].
  split; [lia |]. split; [lia |]. split; [reflexivity |].
  apply (deposit_then_withdraw account_100 0%nat _ 100 0 50 (-2));
    [reflexivity | reflexivity | lia | lia | reflexivity
    | vm_compute; split; discriminate].
Defined.

(** C4, as stated, fails: with balance 1E-28, [deposit(1)] returns
    1.000000000000000000000000000 (the 29th digit is rounded away) and
    [withdraw(1)] then returns 0E-27, which is not the original
    balance. *)
Lemma deposit_then_withdraw_counterexample :
  let one := Numeric (PyDecimal.Finite 1 0) in
  let r1 := deposit 0%nat one account_tiny in
  let r2 := withdraw 0%nat one (snd r1) in
  positive one = Some (PyDecimal.Finite 1 0) /\
  fst r1 = inr (PyDecimal.Finite (10 ^ 27) (-27)) /\
  fst r2 = inr (PyDecimal.Finite 0 (-27)) /\
  balance <$> heap (snd r2) !! 0%nat = Some (PyDecimal.Finite 0 (-27)) /\
  PyDecimal.cmp (PyDecimal.Finite 0 (-27)) (PyDecimal.Finite 1 (-28)) = inr Lt.
Proof. vm_compute. repeat split. Qed.

(** C6. Of two constructions that return, with any calls in between, the
    second account gets a strictly larger number than the first, which
    keeps its own; the numbers start at 1000, and a construction that
    raises changes neither the counter nor anything else. *)
Theorem account_numbers_increase
  (w w1 w2 : world) (n1 n2 : name_arg) (b1 b2 : arg)
  (cs : list call) (l1 l2 : loc) :
  __init__ n1 b1 w = (inr l1, w1) ->
  __init__ n2 b2 (run_calls w1 cs) = (inr l2, w2) ->
  (exists a1 a2 : BankAccount.t,
      heap w2 !! l1 = Some a1 /\ heap w2 !! l2 = Some a2 /\
      account_number a1 = _next_account_number w /\
      account_number a1 < account_number a2 /\
      account_number a1 <> account_number a2) /\
  _next_account_number initial_world = 1000 /\
  (forall n b w0,
      match __init__ n b w0 with
      | (inl _, w0') => w0' = w0
      | (inr _, w0') => _next_account_number w0' = _next_account_number w0 + 1
      end).
Proof.
  intros H1 H2. split; [| split; [reflexivity |]].
  - destruct (init_returns _ _ _ _ _ H1) as (a1 & Ha1 & Hn1 & Hc1).
    destruct (init_returns _ _ _ _ _ H2) as (a2 & Ha2 & Hn2 & Hc2).
    pose proof (extends_run_calls cs w1) as E1.
    pose proof (extends_init n2 b2 (run_calls w1 cs)) as E2.
    rewrite H2 in E2. simpl in E2.
    destruct (extends_trans _ _ _ E1 E2) as [Hc K].
    destruct (K l1 a1 Ha1) as (a1' & Ha1' & Hn1').
    destruct E1 as [Hc' _].
    exists a1', a2. repeat split; try assumption; lia.
  - intros n b w0. destruct (__init__ n b w0) as [[e | l] w0'] eqn:E.
    + now apply init_raises in E.
    + destruct (init_returns _ _ _ _ _ E) as (a & _ & _ & Hc). exact Hc.
Qed.

Lemma account_numbers_increase_witness :
  let alice := Numeric (PyDecimal.Finite 1000 0) in
  let bob := Numeric (PyDecimal.Finite 500 0) in
  let cs := [Deposit 0%nat (Numeric (PyDecimal.Finite 250 0));
             Construct (StrName "   ") (Numeric (PyDecimal.Finite 1 0));
             Construct (StrName "Eve") (Numeric (PyDecimal.Finite (-1) 0))] in
  exists (w1 w2 : world),
    __init__ (StrName "Alice") alice initial_world = (inr 0%nat, w1) /\
    __init__ (StrName "Bob") bob (run_calls w1 cs) = (inr 1%nat, w2) /\
    exists a1 a2 : BankAccount.t,
      heap w2 !! 0%nat = Some a1 /\ heap w2 !! 1%nat = Some a2 /\
      account_number a1 = 1000 /\ account_number a2 = 1001 /\
      account_number a1 < account_number a2.
Proof.
  intros alice bob cs. do 2 eexists.
  split; [reflexivity |]. split; [reflexivity |].
  destruct (account_numbers_increase initial_world _ _ (StrName "Alice")
              (StrName "Bob") alice bob cs 0%nat 1%nat eq_refl eq_refl)
    as [(a1 & a2 & H1 & H2 & H3 & H4 & _) _].
  exists a1, a2. repeat split; try assumption.
  vm_compute in H2. now injection H2 as <-.
Defined.

(** The demonstration at the end of the module: Alice with 1000
    deposits 250, withdraws 150 and transfers 300 to Bob, who has 500. *)
Example demo_accounts :
  let w := run_calls initial_world
             [Construct (StrName "Alice Johnson") (Numeric (PyDecimal.Finite 1000 0));
              Construct (StrName "Bob Smith") (Numeric (PyDecimal.Finite 500 0));
              Deposit 0%nat (Numeric (PyDecimal.Finite 250 0));
              Withdraw 0%nat (Numeric (PyDecimal.Finite 150 0))] in
  fst (transfer_to 0%nat (Instance 1%nat) (Numeric (PyDecimal.Finite 300 0)) w)
  = inr (PyDecimal.Finite 800 0, PyDecimal.Finite 800 0).
Proof. reflexivity. Qed.

End BankTheorems.

(* ===================================================================== *)
(** ** Facts about Python lists and values                                *)
(* ===================================================================== *)

Section PyFacts.
Import Py.

(** [==] on values decides equality. *)
Lemma eqb_eq : forall x y : value, eqb x y = true <-> x = y.
Proof.
  fix IH 1. intros x y.
  destruct x as [| a | a | l], y as [| b | b | m]; simpl;
    try (split; congruence).
  - rewrite Z.eqb_eq. split; congruence.
  - rewrite String.eqb_eq. split; congruence.
  - revert m. induction l as [| a l IHl]; intros [| b m];
      try (split; congruence).
    rewrite andb_true_iff, IH, IHl.
    split; [intros [-> H]; congruence | intros H; split; congruence].
Qed.

Lemma eqb_refl (x : value) : eqb x x = true.
Proof. now apply eqb_eq. Qed.

Lemma eqb_neq (x y : value) : eqb x y = false <-> x <> y.
Proof.
  rewrite <- eqb_eq. destruct (eqb x y); split; congruence.
Qed.

(** [l.index(x)] returns the first position of [x]. *)
Lemma index_Some (l : list value) (x : value) (i : nat) :
  index l x = Some i ->
  l !! i = Some x /\ forall j, (j < i)%nat -> l !! j <> Some x.
Proof.
  revert i. induction l as [| y l IH]; simpl; intros i H; [discriminate |].
  destruct (eqb y x) eqn:E.
  - injection H as <-. apply eqb_eq in E as ->.
    split; [reflexivity | intros j Hj; lia].
  - destruct (index l x) as [k |]; [| discriminate].
    injection H as <-. destruct (IH k eq_refl) as [Hk Hlt].
    split; [exact Hk |].
    intros [| j] Hj; simpl.
    + apply eqb_neq in E. congruence.
    + apply Hlt. lia.
Qed.

(** It raises ValueError only on a list without [x]. *)
Lemma index_None (l : list value) (x : value) :
  index l x = None -> forall i, l !! i <> Some x.
Proof.
  induction l as [| y l IH]; simpl; intros H i.
  - now destruct i.
  - destruct (eqb y x) eqn:E; [discriminate |].
    destruct (index l x); [discriminate |].
    destruct i as [| i]; simpl.
    + apply eqb_neq in E. congruence.
    + now apply IH.
Qed.

Lemma getitem_nat {A} (l : list A) (i : nat) (x : A) :
  l !! i = Some x -> getitem l (Z.of_nat i) = inr x.
Proof.
  intros H. pose proof (lookup_lt_Some _ _ _ H) as Hlt.
  assert (E1 : (Z.of_nat i <? 0) = false) by (apply Z.ltb_ge; lia).
  assert (E2 : (Z.of_nat (length l) <=? Z.of_nat i) = false)
    by (apply Z.leb_gt; lia).
  unfold getitem. cbv zeta. rewrite E1. cbv iota. rewrite E1, E2.
  simpl. now rewrite Nat2Z.id, H.
Qed.

Lemma setitem_nat {A} (l : list A) (i : nat) (x : A) :
  (i < length l)%nat -> setitem l (Z.of_nat i) x = inr (<[i := x]> l).
Proof.
  intros Hlt.
  assert (E1 : (Z.of_nat i <? 0) = false) by (apply Z.ltb_ge; lia).
  assert (E2 : (Z.of_nat (length l) <=? Z.of_nat i) = false)
    by (apply Z.leb_gt; lia).
  unfold setitem. cbv zeta. rewrite E1. cbv iota. rewrite E1, E2.
  simpl. now rewrite Nat2Z.id.
Qed.

Lemma range_down_nil (start stop : Z) :
  start <= stop -> range_down start stop = [].
Proof.
  intros H. unfold range_down.
  now replace (Z.to_nat (start - stop)) with O by lia.
Qed.

Lemma range_down_cons (start stop : Z) :
  stop < start -> range_down start stop = start :: range_down (start - 1) stop.
Proof.
  intros H. unfold range_down.
  replace (Z.to_nat (start - stop)) with (S (Z.to_nat (start - 1 - stop))) by lia.
  cbn [seq map]. f_equal.
  - change (Z.of_nat 0) with 0. lia.
  - rewrite <- seq_shift, map_map. apply map_ext. intros k. lia.
Qed.

End PyFacts.

Section ShiftedFacts.
Import Py Array.

Lemma length_shifted (i k : nat) (l : list value) :
  (i + k < length l)%nat -> length (shifted i k l) = length l.
Proof.
  intros H. unfold shifted.
  rewrite !length_app, !length_take, !length_drop. lia.
Qed.

Lemma insert_shifted (i k : nat) (x : value) (l : list value) :
  (i + k < length l)%nat -> <[i := x]> (shifted i k l) = inserted i k x l.
Proof.
  intros H. unfold shifted, inserted.
  destruct (lookup_lt_is_Some_2 l i) as [y Hy]; [lia |].
  replace (i + 1)%nat with (S i) by lia.
  rewrite (take_S_r l i y Hy), <- app_assoc. simpl.
  rewrite insert_app_r_alt by (rewrite length_take; lia).
  rewrite length_take.
  now replace (i - i `min` length l)%nat with O by lia.
Qed.

End ShiftedFacts.

(* ===================================================================== *)
(** ** Array: lemmas                                                      *)
(* ===================================================================== *)

Section ArrayFacts.
Import Py Array.
Local Open Scope py_scope.

Lemma count_not_None_bounds (l : list value) :
  0 <= count_not_None l <= Z.of_nat (length l).
Proof.
  induction l as [| x l IH]; simpl length; cbn [count_not_None]; [lia |].
  destruct (is_None x); lia.
Qed.

Lemma count_not_None_replicate (n : nat) (v : value) :
  count_not_None (replicate n v) = if is_None v then 0 else Z.of_nat n.
Proof.
  induction n as [| n IH]; cbn [replicate count_not_None].
  - now destruct (is_None v).
  - rewrite IH. destruct (is_None v); lia.
Qed.

Lemma get_length_bounds (a : Array.t) :
  0 <= get_length a <= Z.of_nat (length (items a)).
Proof. apply count_not_None_bounds. Qed.

(** The constructor builds [size] slots. *)
Lemma init_well_formed (n d : value) (a : Array.t) :
  __init__ n d = inr a -> well_formed a.
Proof.
  unfold __init__, well_formed.
  destruct n as [| n | |]; try discriminate.
  destruct (Z.leb_spec n 0); [discriminate |].
  destruct d as [| z | s | l].
  1-3: intros [= <-]; simpl; rewrite length_replicate; lia.
  destruct (Z.ltb_spec n (Z.of_nat (length l))); [discriminate |].
  intros [= <-]; simpl. rewrite length_app, length_replicate. lia.
Qed.

(** One step of the loops: [items[i + 1] = items[i]]. *)
Lemma shift_step (sz : Z) (l : list value) (i : nat) (x : value) :
  l !! i = Some x -> (S i < length l)%nat ->
  shift (Z.of_nat (S i)) {| size := sz; items := l |}
  = (inr tt, {| size := sz; items := <[S i := x]> l |}).
Proof.
  intros Hx Hlt. unfold shift, set_item, bind, get, lift, put. simpl items.
  replace (Z.of_nat (S i) - 1) with (Z.of_nat i) by lia.
  rewrite (getitem_nat _ _ _ Hx).
  now rewrite (setitem_nat l (S i) x Hlt).
Qed.

(** The loop [for i in range(i + k, i, -1): items[i] = items[i - 1]]
    moves the [k] slots from [i] on one place to the right. *)
Lemma for_shift (sz : Z) (k : nat) :
  forall (l : list value) (i : nat),
    (i + k < length l)%nat ->
    for_ (range_down (Z.of_nat (i + k)) (Z.of_nat i)) shift
         {| size := sz; items := l |}
    = (inr tt, {| size := sz; items := shifted i k l |}).
Proof.
  induction k as [| k IH]; intros l i Hlt.
  - rewrite range_down_nil by lia. unfold shifted. simpl.
    rewrite Nat.add_0_r.
    replace (S i) with (i + 1)%nat by lia.
    now rewrite take_drop.
  - rewrite range_down_cons by lia.
    destruct (lookup_lt_is_Some_2 l (i + k)) as [x Hx]; [lia |].
    replace (i + S k)%nat with (S (i + k)) by lia.
    cbn [for_]. unfold bind at 1.
    rewrite (shift_step sz l (i + k) x Hx) by lia.
    replace (Z.of_nat (S (i + k)) - 1) with (Z.of_nat (i + k)) by lia.
    rewrite IH by (rewrite length_insert; lia).
    do 2 f_equal. unfold shifted.
    rewrite take_insert_ge by lia.
    rewrite drop_insert_ge by lia.
    rewrite take_insert_ge by lia.
    rewrite drop_insert_ge by lia.
    replace (S (i + k) - (i + k + 1))%nat with O by lia.
    rewrite (take_S_r (drop i l) k x) by (now rewrite lookup_drop).
    destruct (lookup_lt_is_Some_2 l (i + k + 1)) as [y Hy]; [lia |].
    rewrite (drop_S l y (i + k + 1) Hy). simpl.
    rewrite <- app_assoc. simpl.
    now replace (S (i + k + 1)) with (i + S k + 1)%nat by lia.
Qed.

(** What a successful [insert_at_index] does to the slots. *)
Lemma insert_at_index_ok (a : Array.t) (i : nat) (element : value) :
  well_formed a -> get_length a < size a ->
  Z.of_nat i <= get_length a ->
  insert_at_index (Z.of_nat i) element a
  = (inr tt, {| size := size a;
                items := inserted i (Z.to_nat (get_length a) - i) element (items a) |}).
Proof.
  intros Hwf Hfull Hi. unfold well_formed in Hwf.
  pose proof (get_length_bounds a) as Hb.
  unfold insert_at_index. unfold bind at 1, get at 1.
  destruct (Z.leb_spec (size a) (get_length a)); [lia |].
  destruct (Z.ltb_spec (Z.of_nat i) 0); [lia |].
  destruct (Z.ltb_spec (get_length a) (Z.of_nat i)); [lia |]. simpl orb. cbv iota.
  set (k := (Z.to_nat (get_length a) - i)%nat).
  replace (get_length a) with (Z.of_nat (i + k)) by lia.
  destruct a as [sz l]. simpl in *. unfold bind at 1.
  rewrite for_shift by lia.
  unfold set_item, bind, get, lift, put. simpl items.
  rewrite setitem_nat by (rewrite length_shifted; lia).
  simpl. do 2 f_equal. apply insert_shifted. lia.
Qed.

End ArrayFacts.

Section ArrayInvariant.
Import Py Array.
Local Open Scope py_scope.

Lemma length_inserted (i k : nat) (x : value) (l : list value) :
  (i + k < length l)%nat -> length (inserted i k x l) = length l.
Proof.
  intros H. rewrite <- insert_shifted by assumption.
  now rewrite length_insert, length_shifted.
Qed.

(** [insert_at_index] raises with the array as it was, or returns with
    as many slots as before. *)
Lemma insert_at_index_cases (a : Array.t) (i : Z) (element : value) :
  well_formed a ->
  (exists e, insert_at_index i element a = (inl e, a)) \/
  (exists l, insert_at_index i element a = (inr tt, {| size := size a; items := l |})
             /\ length l = length (items a)).
Proof.
  intros Hwf. pose proof (get_length_bounds a) as Hb.
  pose proof Hwf as Hlen. unfold well_formed in Hlen.
  destruct (Z.leb_spec (size a) (get_length a)) as [Hfull | Hfull].
  { left. exists ArrayError. unfold insert_at_index, bind, get, raise.
    destruct (Z.leb_spec (size a) (get_length a)); [reflexivity | lia]. }
  destruct (Z.ltb_spec i 0) as [Hneg | Hpos].
  { left. exists IndexError. unfold insert_at_index, bind, get, raise.
    destruct (Z.leb_spec (size a) (get_length a)); [lia |].
    destruct (Z.ltb_spec i 0); [reflexivity | lia]. }
  destruct (Z.ltb_spec (get_length a) i) as [Hbig | Hin].
  { left. exists IndexError. unfold insert_at_index, bind, get, raise.
    destruct (Z.leb_spec (size a) (get_length a)); [lia |].
    destruct (Z.ltb_spec i 0); [lia |].
    destruct (Z.ltb_spec (get_length a) i); [reflexivity | lia]. }
  right. rewrite <- (Z2Nat.id i) by lia.
  rewrite insert_at_index_ok by (assumption || lia).
  eexists. split; [reflexivity |]. apply length_inserted. lia.
Qed.

Lemma well_formed_insert_at_index (a : Array.t) (i : Z) (element : value) :
  well_formed a -> well_formed (snd (insert_at_index i element a)).
Proof.
  intros Hwf.
  destruct (insert_at_index_cases a i element Hwf) as [[e ->] | (l & -> & Hl)];
    [exact Hwf |].
  unfold well_formed in *. simpl. now rewrite Hl.
Qed.

Lemma well_formed_insert_before_index (a : Array.t) (i : Z) (element : value) :
  well_formed a -> well_formed (snd (insert_before_index i element a)).
Proof.
  intros Hwf. unfold insert_before_index, bind, get, raise.
  destruct (size a <=? get_length a); [exact Hwf |].
  destruct ((i <? 0) || (get_length a <? i)); [exact Hwf |].
  now apply well_formed_insert_at_index.
Qed.

Lemma well_formed_insert_after_index (a : Array.t) (i : Z) (element : value) :
  well_formed a -> well_formed (snd (insert_after_index i element a)).
Proof.
  intros Hwf. unfold insert_after_index, bind, get, raise.
  destruct (size a <=? get_length a); [exact Hwf |].
  destruct ((i <? 0) || (get_length a <=? i)); [exact Hwf |].
  now apply well_formed_insert_at_index.
Qed.

Lemma well_formed_delete (a : Array.t) (element : value) :
  well_formed a -> well_formed (snd (delete element a)).
Proof.
  intros Hwf. unfold delete, bind, get.
  destruct (index (items a) element) as [i |] eqn:E; [| exact Hwf].
  destruct (index_Some _ _ _ E) as [Hi _].
  unfold set_item, bind, get, lift, put, ret.
  rewrite setitem_nat by (eapply lookup_lt_Some; eassumption).
  unfold well_formed in *. simpl. now rewrite length_insert.
Qed.

End ArrayInvariant.

(* ===================================================================== *)
(** ** Array: the specified properties                                    *)
(* ===================================================================== *)

Section ArrayTheorems.
Import Py Array.
Local Open Scope py_scope.

(** C5, as amended. For every positive capacity [c] and every fill
    argument [v] that is a single non-list value, [Array(c, v)] sets every
    one of the [c] slots to [v]; [get_length()] is then [c] when [v] is
    not [None], and [0] when [v] is [None], the empty marker. *)
Theorem init_single_value_fill (c : Z) (v : value) :
  0 < c -> is_list v = false ->
  exists a,
    __init__ (Int c) v = inr a /\
    size a = c /\
    items a = replicate (Z.to_nat c) v /\
    get_length a = if is_None v then 0 else c.
Proof.
  intros Hc Hv. unfold __init__.
  destruct (Z.leb_spec c 0); [lia |].
  destruct v as [| z | s | l]; try discriminate;
    (eexists; split; [reflexivity |]);
    (split; [reflexivity |]); (split; [reflexivity |]);
    unfold get_length; cbn [items]; rewrite count_not_None_replicate;
    cbn [is_None]; lia.
Qed.

Lemma init_single_value_fill_witness :
  0 < 3 /\ is_list (Int 0) = false /\
  exists a,
    __init__ (Int 3) (Int 0) = inr a /\
    size a = 3 /\
    items a = replicate (Z.to_nat 3) (Int 0) /\
    get_length a = if is_None (Int 0) then 0 else 3.
Proof.
  split; [lia |]. split; [reflexivity |].
  apply (init_single_value_fill 3 (Int 0)); [lia | reflexivity].
Defined.

(** C5, as stated, fails on the fill value [None]: it is a single
    non-list value, every slot is set to it, and [get_length()] is [0],
    not the capacity. *)
Lemma init_None_fill_counterexample :
  is_list None_ = false /\
  exists a,
    __init__ (Int 3) None_ = inr a /\
    items a = [None_; None_; None_] /\
    get_length a = 0 /\ get_length a <> 3.
Proof.
  split; [reflexivity |]. eexists. split; [reflexivity |].
  split; [reflexivity |]. split; [reflexivity | discriminate].
Qed.

(** C7. On an array whose [get_length()] equals its [size], each of
    [insert_first], [insert_at_index], [insert_after_index] and
    [insert_before_index] raises ArrayError, whatever the index, and
    leaves the array as it was. *)
Theorem insert_on_full_array (a : Array.t) (index_ : Z) (element : value) :
  get_length a = size a ->
  insert_first element a = (inl ArrayError, a) /\
  insert_at_index index_ element a = (inl ArrayError, a) /\
  insert_after_index index_ element a = (inl ArrayError, a) /\
  insert_before_index index_ element a = (inl ArrayError, a).
Proof.
  intros H.
  unfold insert_first, insert_at_index, insert_after_index,
    insert_before_index, bind, get, raise.
  rewrite H, Z.leb_refl. auto.
Qed.

Lemma insert_on_full_array_witness :
  let a := {| size := 2; items := [Int 1; Int 2] |} in
  get_length a = size a /\
  insert_first (Int 0) a = (inl ArrayError, a) /\
  insert_at_index 10 (Int 0) a = (inl ArrayError, a) /\
  insert_after_index 10 (Int 0) a = (inl ArrayError, a) /\
  insert_before_index 10 (Int 0) a = (inl ArrayError, a).
Proof.
  intros a. split; [reflexivity |].
  apply (insert_on_full_array a 10 (Int 0)). reflexivity.
Defined.




(** C9. [delete(element)] finds the first slot equal to [element]
    ([None] included): if there is one, at [i], it returns [True] and
    the slots are the former ones with [None] at [i], nothing moved;
    if there is none it returns [False] and the array is unchanged. *)
Theorem delete_first_match (a : Array.t) (element : value) :
  (exists i : nat,
      items a !! i = Some element /\
      (forall j, (j < i)%nat -> items a !! j <> Some element) /\
      delete element a
      = (inr true, {| size := size a; items := <[i := None_]> (items a) |}))
  \/
  ((forall i : nat, items a !! i <> Some element) /\
   delete element a = (inr false, a)).
Proof.
  unfold delete, bind, get.
  destruct (index (items a) element) as [i |] eqn:E.
  - left. exists i. destruct (index_Some _ _ _ E) as [Hi Hfirst].
    split; [exact Hi |]. split; [exact Hfirst |].
    unfold set_item, bind, get, lift, put, ret.
    now rewrite setitem_nat by (eapply lookup_lt_Some; eassumption).
  - right. split; [now apply index_None | reflexivity].
Qed.

(** What a successful [insert_first] does to the slots: [element], then
    the first [get_length()] slots; the slot at [get_length()] is
    dropped and the later ones stay. *)
Lemma insert_first_ok (a : Array.t) (element : value) :
  well_formed a -> get_length a < size a ->
  insert_first element a
  = (inr tt, {| size := size a;
                items := element :: take (Z.to_nat (get_length a)) (items a)
                         ++ drop (S (Z.to_nat (get_length a))) (items a) |}).
Proof.
  intros Hwf Hfull. pose proof (get_length_bounds a) as Hb.
  pose proof Hwf as Hlen. unfold well_formed in Hlen.
  pose proof (insert_at_index_ok a 0 element Hwf Hfull) as H.
  change (Z.of_nat 0) with 0 in H. specialize (H (proj1 Hb)).
  unfold insert_at_index in H. unfold insert_first.
  unfold bind at 1, get at 1 in H. unfold bind at 1, get at 1.
  destruct (Z.leb_spec (size a) (get_length a)); [lia |].
  destruct (Z.ltb_spec (get_length a) 0); [lia |].
  simpl in H. rewrite H. do 2 f_equal.
  unfold inserted. rewrite take_0, drop_0, Nat.sub_0_r. simpl.
  now replace (Z.to_nat (get_length a) + 1)%nat
    with (S (Z.to_nat (get_length a))) by lia.
Qed.

Lemma well_formed_insert_first (a : Array.t) (element : value) :
  well_formed a -> well_formed (snd (insert_first element a)).
Proof.
  intros Hwf. pose proof (get_length_bounds a) as Hb.
  pose proof Hwf as Hlen. unfold well_formed in Hlen.
  destruct (Z.leb_spec (size a) (get_length a)) as [Hfull | Hfull].
  - unfold insert_first, bind, get, raise.
    destruct (Z.leb_spec (size a) (get_length a)); [exact Hwf | lia].
  - rewrite insert_first_ok by assumption.
    unfold well_formed. simpl.
    rewrite length_app, length_take, length_drop. lia.
Qed.

(** C10. On an array with an empty slot below [get_length()], left by a
    [delete], a successful [insert_first] stores in the slot at index
    [get_length()] the value shifted from the slot before it; the value
    [x] that slot held is gone: the new slots are the old ones with
    [element] added and that occurrence of [x] removed. *)
Theorem insert_first_after_hole
  (a : Array.t) (element x : value) (hole : nat) :
  well_formed a -> get_length a < size a ->
  (hole < Z.to_nat (get_length a))%nat -> items a !! hole = Some None_ ->
  items a !! Z.to_nat (get_length a) = Some x ->
  exists items' : list value,
    insert_first element a = (inr tt, {| size := size a; items := items' |}) /\
    items' !! Z.to_nat (get_length a)
    = items a !! (Z.to_nat (get_length a) - 1)%nat /\
    items' = element :: take (Z.to_nat (get_length a)) (items a)
             ++ drop (S (Z.to_nat (get_length a))) (items a) /\
    Permutation (x :: items') (element :: items a).
Proof.
  intros Hwf Hfull Hhole _ Hx.
  pose proof (get_length_bounds a) as Hb.
  pose proof Hwf as Hlen. unfold well_formed in Hlen.
  set (L := Z.to_nat (get_length a)) in *.
  eexists. split; [apply insert_first_ok; assumption |]. fold L.
  split; [| split; [reflexivity |]].
  - pose proof (lookup_lt_Some _ _ _ Hx) as HL.
    destruct L as [| L']; [lia |].
    simpl. rewrite lookup_app_l by (rewrite length_take; lia).
    rewrite lookup_take_lt by lia. f_equal. lia.
  - rewrite <- (take_drop_middle (items a) L x Hx) at 3.
    rewrite perm_swap. apply perm_skip. apply Permutation_middle.
Qed.

Lemma insert_first_after_hole_witness :
  let a := {| size := 3; items := [Int 1; None_; Int 3] |} in
  well_formed a /\ get_length a < size a /\
  (1 < Z.to_nat (get_length a))%nat /\ items a !! 1%nat = Some None_ /\
  items a !! Z.to_nat (get_length a) = Some (Int 3) /\
  exists items' : list value,
    insert_first (Int 9) a = (inr tt, {| size := size a; items := items' |}) /\
    items' !! Z.to_nat (get_length a)
    = items a !! (Z.to_nat (get_length a) - 1)%nat /\
    items' = Int 9 :: take (Z.to_nat (get_length a)) (items a)
             ++ drop (S (Z.to_nat (get_length a))) (items a) /\
    Permutation (Int 3 :: items') (Int 9 :: items a).
Proof.
  intros a. split; [reflexivity |]. split; [reflexivity |].
  split; [vm_compute; lia |]. split; [reflexivity |]. split; [reflexivity |].
  apply (insert_first_after_hole a (Int 9) (Int 3) 1);
    try reflexivity; vm_compute; lia.
Defined.

(** The example of C10: capacity 3, slots [1, None, 3]. *)
Example insert_first_loses_3 :
  insert_first (Int 9) {| size := 3; items := [Int 1; None_; Int 3] |}
  = (inr tt, {| size := 3; items := [Int 9; Int 1; None_] |}) /\
  ~ In (Int 3) [Int 9; Int 1; None_].
Proof.
  split; [reflexivity |]. simpl. intros [H | [H | [H | []]]]; discriminate.
Qed.

(** The demonstration at the end of the module. *)
Example demo :
  forall a : Array.t,
    __init__ (Int 5) (List_ [Int 1]) = inr a ->
    get_length a = 1 /\
    items (snd (insert_first (Int 3) a)) = [Int 3; Int 1; None_; None_; None_] /\
    items (snd ((insert_first (Int 3) ;;
                 insert_after_index 1 (Int 4) ;;
                 insert_before_index 3 (Int 5))%py a))
    = [Int 3; Int 1; Int 4; Int 5; None_].
Proof. intros a [= <-]. repeat split. Qed.

End ArrayTheorems.

(* ===================================================================== *)
(** ** BankAccount: further properties                                    *)
(* ===================================================================== *)

Section StripFacts.
Import Py BankAccount.

Lemma list_ascii_inj (s1 s2 : string) :
  list_ascii_of_string s1 = list_ascii_of_string s2 -> s1 = s2.
Proof.
  intros H. rewrite <- (string_of_list_ascii_of_string s1),
    <- (string_of_list_ascii_of_string s2). now rewrite H.
Qed.

Lemma list_lstrip (s : string) :
  list_ascii_of_string (lstrip s) = dropspace (list_ascii_of_string s).
Proof.
  induction s as [| c s IH]; [reflexivity |]. simpl.
  now destruct (isspace c).
Qed.

Lemma list_rev_app (s1 s2 : string) :
  list_ascii_of_string (String.rev_app s1 s2)
  = rev (list_ascii_of_string s1) ++ list_ascii_of_string s2.
Proof.
  revert s2. induction s1 as [| c s1 IH]; intros s2; [reflexivity |].
  simpl. rewrite IH. simpl. now rewrite <- app_assoc.
Qed.

Lemma list_rev (s : string) :
  list_ascii_of_string (String.rev s) = rev (list_ascii_of_string s).
Proof. unfold String.rev. rewrite list_rev_app. simpl. apply app_nil_r. Qed.

Lemma list_strip (s : string) :
  list_ascii_of_string (strip s)
  = rev (dropspace (rev (dropspace (list_ascii_of_string s)))).
Proof. unfold strip. now rewrite list_rev, list_lstrip, list_rev, list_lstrip. Qed.

Lemma headok_dropspace (l : list ascii) : headok (dropspace l).
Proof.
  induction l as [| c l IH]; [exact I |]. simpl.
  destruct (isspace c) eqn:E; [exact IH | exact E].
Qed.

Lemma dropspace_headok (l : list ascii) : headok l -> dropspace l = l.
Proof. destruct l as [| c l]; [reflexivity |]. simpl. now intros ->. Qed.

Lemma headok_app (l : list ascii) (c : ascii) : headok (l ++ [c]) -> headok l.
Proof. now destruct l. Qed.

(** Stripping the end of a string that starts well leaves a string that
    starts well. *)
Lemma headok_rstrip (t : list ascii) :
  headok t -> headok (rev (dropspace (rev t))).
Proof.
  induction t as [| c t IH] using rev_ind; [intros _; exact I |].
  intros H. rewrite rev_app_distr. simpl.
  destruct (isspace c) eqn:E.
  - apply IH. now apply headok_app in H.
  - change (c :: rev t) with (rev [c] ++ rev t).
    now rewrite <- rev_app_distr, rev_involutive.
Qed.

(** [strip] is idempotent. *)
Lemma strip_strip (s : string) : strip (strip s) = strip s.
Proof.
  apply list_ascii_inj. rewrite (list_strip (strip s)), (list_strip s).
  set (t := dropspace (list_ascii_of_string s)).
  rewrite (dropspace_headok (rev (dropspace (rev t))))
    by apply headok_rstrip, headok_dropspace.
  rewrite rev_involutive.
  now rewrite (dropspace_headok (dropspace (rev t))) by apply headok_dropspace.
Qed.

End StripFacts.

Section BankSteps.
Import Py BankAccount.
Local Open Scope py_scope.

Lemma lt_zero_false_iff (d : PyDecimal.t) :
  PyDecimal.lt d PyDecimal.zero = inr false <-> PyDecimal.nonneg d.
Proof.
  unfold PyDecimal.nonneg, PyDecimal.lt, PyDecimal.ge, PyDecimal.test.
  destruct (PyDecimal.cmp d PyDecimal.zero) as [e | []]; split; congruence.
Qed.

Lemma steps_init (n : name_arg) (b : arg) (w : world) :
  steps w (snd (__init__ n b w)).
Proof.
  rewrite init_eq. destruct n as [s |]; [| constructor].
  destruct (String.eqb_spec (strip s) EmptyString) as [| Hs]; [constructor |].
  destruct b as [d | | e0]; [| constructor | constructor].
  destruct (PyDecimal.lt d PyDecimal.zero) as [e | []] eqn:E; try constructor.
  - exact Hs.
  - now apply lt_zero_false_iff.
Qed.

Lemma steps_deposit (self : loc) (amount : arg) (w : world) :
  steps w (snd (deposit self amount w)).
Proof.
  rewrite deposit_eq.
  destruct (positive amount) as [d |]; [| constructor].
  destruct (heap w !! self) as [a |] eqn:Ha; [| constructor].
  destruct (PyDecimal.add getcontext (balance a) d);
    [constructor | now apply steps_store].
Qed.

Lemma steps_withdraw (self : loc) (amount : arg) (w : world) :
  steps w (snd (withdraw self amount w)).
Proof.
  rewrite withdraw_eq.
  destruct (positive amount) as [d |]; [| constructor].
  destruct (heap w !! self) as [a |] eqn:Ha; [| constructor].
  destruct (PyDecimal.gt d (balance a)) as [e | []]; try constructor.
  destruct (PyDecimal.sub getcontext (balance a) d);
    [constructor | now apply steps_store].
Qed.

Lemma steps_run_call (w : world) (c : call) : steps w (run_call w c).
Proof.
  destruct c as [n b | self a | self a | self [other |] a]; cbn [run_call].
  - apply steps_init.
  - apply steps_deposit.
  - apply steps_withdraw.
  - rewrite transfer_snd.
    pose proof (steps_withdraw self a w) as H.
    destruct (withdraw self a w) as [[e | b] w1]; [exact H |].
    eapply steps_trans; [exact H | apply steps_deposit].
  - constructor.
Qed.

Lemma steps_run_calls (cs : list call) : forall w, steps w (run_calls w cs).
Proof.
  induction cs as [| c cs IH]; intros w; [constructor |].
  eapply steps_trans; [apply steps_run_call | apply IH].
Qed.

Lemma steps_numbered (w w' : world) : steps w w' -> numbered w -> numbered w'.
Proof.
  induction 1 as [w | w l a b Ha | w s d Hs Hd | w1 w2 w3 _ IH1 _ IH2];
    intros Hw; auto; destruct Hw as [Hc Hn].
  - split.
    { unfold store. cbn [heap _next_account_number].
      now rewrite length_insert. }
    intros l' a'. simpl. destruct (decide (l = l')) as [<- | Hne].
    + rewrite list_lookup_insert_eq by (eapply lookup_lt_Some; eassumption).
      intros [= <-]. simpl. now apply Hn.
    + rewrite list_lookup_insert_ne by assumption. apply Hn.
  - split; [simpl; rewrite length_app; simpl length; lia |].
    intros l a. simpl. intros Hl.
    apply lookup_app_Some in Hl as [Hl | [Hge Hl]]; [now apply Hn |].
    apply list_lookup_singleton_Some in Hl as [Hz <-]. simpl. lia.
Qed.

Lemma steps_names (w w' : world) :
  steps w w' -> names_stripped w -> names_stripped w'.
Proof.
  induction 1 as [w | w l a b Ha | w s d Hs Hd | w1 w2 w3 _ IH1 _ IH2];
    intros Hw; auto.
  - apply Forall_insert; [exact Hw |]. simpl.
    exact (proj1 (Forall_lookup _ _) Hw l a Ha).
  - apply Forall_app. split; [exact Hw |].
    apply Forall_singleton. simpl. split; [exact Hs | apply strip_strip].
Qed.

Lemma steps_identity (w w' : world) :
  steps w w' ->
  forall l a, heap w !! l = Some a ->
              exists a', heap w' !! l = Some a' /\
                         account_number a' = account_number a /\
                         name a' = name a.
Proof.
  induction 1 as [w | w l a b Ha | w s d Hs Hd | w1 w2 w3 _ IH1 _ IH2];
    intros l' a' Ha'.
  - eauto.
  - simpl. destruct (decide (l = l')) as [<- | Hne].
    + rewrite list_lookup_insert_eq by (eapply lookup_lt_Some; eassumption).
      rewrite Ha in Ha'. injection Ha' as <-.
      eexists. split; [reflexivity |]. now split.
    + rewrite list_lookup_insert_ne by assumption. eauto.
  - exists a'. split; [| now split]. simpl. now apply lookup_app_l_Some.
  - destruct (IH1 l' a' Ha') as (a1 & H1 & E1 & E2).
    destruct (IH2 l' a1 H1) as (a2 & H2 & E3 & E4).
    exists a2. split; [exact H2 |]. split; congruence.
Qed.

End BankSteps.

Section DecimalSameExponent.
Import PyDecimal.



Lemma add_same_exponent (ctx : Context) (x y e : Z) :
  1 <= prec ctx -> 0 <= x -> 0 <= y -> x + y < 10 ^ prec ctx ->
  Etiny ctx <= e <= Etop ctx ->
  add ctx (Finite x e) (Finite y e) = inr (Finite (x + y) e).
Proof.
  intros Hp Hx Hy Hs He. cbn [add]. unfold add_finite.
  rewrite Z.min_id, Z.sub_diag. change (10 ^ 0) with 1.
  replace (Z.max e (e - prec ctx - 1)) with e by lia.
  rewrite Z.sub_diag. change (10 ^ 0) with 1.
  destruct (Z.eqb_spec x 0) as [-> |], (Z.eqb_spec y 0) as [-> |];
    cbn [andb]; rewrite ?Z.mul_1_r; rewrite ?Z.add_0_l, ?Z.add_0_r;
    apply fix_exact; lia.
Qed.

Lemma sub_same_exponent (ctx : Context) (x y e : Z) :
  1 <= prec ctx -> 0 <= y <= x -> x < 10 ^ prec ctx ->
  Etiny ctx <= e <= Etop ctx ->
  sub ctx (Finite x e) (Finite y e) = inr (Finite (x - y) e).
Proof.
  intros Hp Hy Hx He. unfold sub. cbn [copy_negate add]. unfold add_finite.
  rewrite Z.min_id, Z.sub_diag. change (10 ^ 0) with 1.
  replace (Z.max e (e - prec ctx - 1)) with e by lia.
  rewrite Z.sub_diag. change (10 ^ 0) with 1.
  destruct (Z.eqb_spec x 0) as [Hx0 |], (Z.eqb_spec (- y) 0) as [Hy0 |];
    cbn [andb]; rewrite ?Z.mul_1_r.
  - replace (x - y) with 0 by lia. apply fix_exact; lia.
  - lia.
  - replace (x - y) with x by lia. apply fix_exact; lia.
  - replace (x + - y) with (x - y) by lia. apply fix_exact; lia.
Qed.

Lemma gt_same_exponent (x y e : Z) :
  gt (Finite x e) (Finite y e) = inr (y <? x).
Proof.
  unfold gt, test, cmp. rewrite cmp_finite_spec.
  rewrite Z.min_id, Z.sub_diag. change (10 ^ 0) with 1. rewrite !Z.mul_1_r.
  destruct (Z.compare_spec x y), (Z.ltb_spec y x); try reflexivity; lia.
Qed.

(** Subtracting from a finite balance an amount equal to it gives zero. *)
Lemma sub_equal (ctx : Context) (cb eb cd ed : Z) :
  cd <> 0 -> cmp (Finite cd ed) (Finite cb eb) = inr Eq ->
  exists e0, sub ctx (Finite cb eb) (Finite cd ed) = inr (Finite 0 e0).
Proof.
  intros Hd Hcmp. unfold cmp in Hcmp. rewrite cmp_finite_spec in Hcmp.
  injection Hcmp as Hcmp. apply Z.compare_eq in Hcmp.
  rewrite (Z.min_comm ed eb) in Hcmp.
  assert (Hp1 : 0 < 10 ^ (eb - Z.min eb ed)) by (apply Z.pow_pos_nonneg; lia).
  assert (Hp2 : 0 < 10 ^ (ed - Z.min eb ed)) by (apply Z.pow_pos_nonneg; lia).
  unfold sub. cbn [copy_negate add]. unfold add_finite.
  destruct (Z.eqb_spec cb 0) as [-> |]; [nia |].
  destruct (Z.eqb_spec (- cd) 0); [lia |]. cbn [andb].
  replace (cb * 10 ^ (eb - Z.min eb ed) + - cd * 10 ^ (ed - Z.min eb ed))
    with 0 by lia.
  unfold fix_. simpl. eauto.
Qed.

End DecimalSameExponent.

Section BankExtras.
Import Py BankAccount.
Local Open Scope py_scope.

(** X1. [BankAccount(name, initial_balance)] returns exactly when [name]
    is a str that is not blank and [initial_balance] reads as a Decimal
    [d] for which [d >= 0] is True (so not a NaN, and not negative;
    Infinity is accepted). *)
Theorem init_succeeds_iff (n : name_arg) (b : arg) (w : world) :
  (exists l w', __init__ n b w = (inr l, w')) <->
  (exists s d, n = StrName s /\ strip s <> EmptyString /\
               b = Numeric d /\
               PyDecimal.ge d PyDecimal.zero = inr true).
Proof.
  rewrite init_eq. split.
  - intros (l & w' & H). destruct n as [s |]; [| discriminate].
    destruct (String.eqb_spec (strip s) EmptyString) as [| Hs]; [discriminate |].
    destruct b as [d | | e0]; [| discriminate | discriminate].
    destruct (PyDecimal.lt d PyDecimal.zero) as [e | []] eqn:E;
      try discriminate.
    exists s, d. repeat split; try assumption. now apply lt_zero_false_iff.
  - intros (s & d & -> & Hs & -> & Hd).
    destruct (String.eqb_spec (strip s) EmptyString) as [| _]; [contradiction |].
    rewrite (proj2 (lt_zero_false_iff d) Hd). eauto.
Qed.

(** X2. A construction that returns adds one instance at the end of the
    heap, under the reference it returns: its name is the stripped
    [name], its balance the Decimal read, its number the counter, which
    goes up by one; the instances that existed are untouched. *)
Theorem init_returns_new_account
  (n : name_arg) (b : arg) (w w' : world) (l : loc) :
  __init__ n b w = (inr l, w') ->
  l = length (heap w) /\
  _next_account_number w' = _next_account_number w + 1 /\
  exists s d,
    n = StrName s /\ b = Numeric d /\
    heap w' = heap w ++ [ {| name := strip s; balance := d;
                             account_number := _next_account_number w |} ].
Proof.
  rewrite init_eq. destruct n as [s |]; [| discriminate].
  destruct (String.eqb (strip s) EmptyString); [discriminate |].
  destruct b as [d | | e0]; [| discriminate | discriminate].
  destruct (PyDecimal.lt d PyDecimal.zero) as [e | []]; try discriminate.
  intros [= <- <-]. split; [reflexivity |]. split; [reflexivity |].
  exists s, d. repeat split.
Qed.

Lemma init_returns_new_account_witness :
  exists w' : world,
    __init__ (StrName "  John Doe ") (Numeric (PyDecimal.Finite 1000 0))
      account_100 = (inr 1%nat, w') /\
    1%nat = length (heap account_100) /\
    heap w' !! 1%nat
    = Some {| name := "John Doe"; balance := PyDecimal.Finite 1000 0;
              account_number := 1001 |}.
Proof.
  eexists. split; [reflexivity |].
  destruct (init_returns_new_account (StrName "  John Doe ")
              (Numeric (PyDecimal.Finite 1000 0)) account_100 _ 1%nat eq_refl)
    as (Hl & _ & _).
  split; [exact Hl | reflexivity].
Defined.


(** X4. Whatever calls are made, the name of every account is non-empty
    and has no whitespace at either end: stripping it again gives the
    same name. *)
Theorem names_always_stripped (cs : list call) :
  Forall (fun a => name a <> EmptyString /\ strip (name a) = name a)
         (heap (run_calls initial_world cs)).
Proof.
  apply (steps_names initial_world); [apply steps_run_calls | constructor].
Qed.

(** X5. Whatever calls are made, the account at the [l]-th reference
    created has number [1000 + l], and the counter is 1000 plus the
    number of accounts: a number is used once, in the order of
    creation. *)
Theorem accounts_numbered_by_creation
  (cs : list call) (l : loc) (a : BankAccount.t) :
  heap (run_calls initial_world cs) !! l = Some a ->
  account_number a = 1000 + Z.of_nat l /\
  _next_account_number (run_calls initial_world cs)
  = 1000 + Z.of_nat (length (heap (run_calls initial_world cs))).
Proof.
  intros Ha.
  destruct (steps_numbered initial_world _ (steps_run_calls cs initial_world))
    as [Hc Hn].
  - split; [reflexivity | intros l' a' H; destruct l'; discriminate].
  - split; [now apply Hn | exact Hc].
Qed.

Lemma accounts_numbered_by_creation_witness :
  let cs := [Construct (StrName "Alice") (Numeric (PyDecimal.Finite 1000 0));
             Construct NotStr (Numeric (PyDecimal.Finite 1 0));
             Construct (StrName "Bob") (Numeric (PyDecimal.Finite 500 0));
             Withdraw 1%nat (Numeric (PyDecimal.Finite 20 0))] in
  exists a : BankAccount.t,
    heap (run_calls initial_world cs) !! 1%nat = Some a /\
    account_number a = 1001 /\
    _next_account_number (run_calls initial_world cs) = 1002.
Proof.
  intros cs. eexists. split; [reflexivity |].
  exact (accounts_numbered_by_creation cs 1%nat _ eq_refl).
Defined.

(** X6. Among the accounts that exist after any calls, [a == b] is True
    exactly when [a] and [b] are the same instance; compared with an
    object that is not a BankAccount it is False. *)
Theorem eq_is_identity
  (cs : list call) (l1 l2 : loc) (a1 a2 : BankAccount.t) :
  heap (run_calls initial_world cs) !! l1 = Some a1 ->
  heap (run_calls initial_world cs) !! l2 = Some a2 ->
  __eq__ l1 (Instance l2) (run_calls initial_world cs)
  = (inr (Nat.eqb l1 l2), run_calls initial_world cs) /\
  __eq__ l1 NotInstance (run_calls initial_world cs)
  = (inr false, run_calls initial_world cs).
Proof.
  intros H1 H2. split; [| reflexivity].
  destruct (steps_numbered initial_world _ (steps_run_calls cs initial_world))
    as [_ Hn].
  { split; [reflexivity | intros l' a' H; destruct l'; discriminate]. }
  unfold __eq__, bind, get_account_number, ret. rewrite H1, H2.
  rewrite (Hn l1 a1 H1), (Hn l2 a2 H2). do 2 f_equal.
  destruct (Nat.eqb_spec l1 l2) as [-> | Hne].
  - apply Z.eqb_refl.
  - apply Z.eqb_neq. lia.
Qed.

Lemma eq_is_identity_witness :
  let cs := [Construct (StrName "Alice") (Numeric (PyDecimal.Finite 100 0));
             Construct (StrName "Alice") (Numeric (PyDecimal.Finite 100 0))] in
  __eq__ 0%nat (Instance 1%nat) (run_calls initial_world cs)
  = (inr false, run_calls initial_world cs) /\
  __eq__ 0%nat NotInstance (run_calls initial_world cs)
  = (inr false, run_calls initial_world cs).
Proof.
  intros cs.
  exact (eq_is_identity cs 0%nat 1%nat _ _ eq_refl eq_refl).
Defined.

(** X7. The number and the name of an account never change: after any
    calls [get_account_info()] still reports the number and the name the
    account had, and as balance what [get_balance()] returns. *)
Theorem identity_immutable
  (w : world) (cs : list call) (l : loc) (a : BankAccount.t) :
  heap w !! l = Some a ->
  exists (info : gmap string info_value) (b : PyDecimal.t),
    get_account_info l (run_calls w cs) = (inr info, run_calls w cs) /\
    info !! "account_number" = Some (InfoInt (account_number a)) /\
    info !! "name" = Some (InfoStr (name a)) /\
    info !! "balance" = Some (InfoDecimal b) /\
    get_balance l (run_calls w cs) = (inr b, run_calls w cs).
Proof.
  intros Ha.
  destruct (steps_identity _ _ (steps_run_calls cs w) l a Ha)
    as (a' & Ha' & <- & <-).
  unfold get_account_info, get_balance. rewrite Ha'.
  eexists. exists (balance a'). split; [reflexivity |].
  split; [apply lookup_insert_eq |].
  split; [rewrite lookup_insert_ne by done; apply lookup_insert_eq |].
  split; [| reflexivity].
  rewrite !lookup_insert_ne by done. apply lookup_insert_eq.
Qed.

Lemma identity_immutable_witness :
  let cs := [Deposit 0%nat (Numeric (PyDecimal.Finite 50 0));
             Construct (StrName "Eve") (Numeric (PyDecimal.Finite 7 0));
             TransferTo 0%nat (Instance 1%nat) (Numeric (PyDecimal.Finite 30 0))] in
  exists (info : gmap string info_value) (b : PyDecimal.t),
    get_account_info 0%nat (run_calls account_100 cs)
    = (inr info, run_calls account_100 cs) /\
    info !! "account_number" = Some (InfoInt 1000) /\
    info !! "name" = Some (InfoStr "Bob Smith") /\
    info !! "balance" = Some (InfoDecimal b) /\
    get_balance 0%nat (run_calls account_100 cs)
    = (inr b, run_calls account_100 cs).
Proof.
  intros cs. exact (identity_immutable account_100 cs 0%nat _ eq_refl).
Defined.

End BankExtras.

Section BankExtrasArithmetic.
Import Py BankAccount.
Local Open Scope py_scope.

(** X8. A [deposit] or a [withdraw] that raises, whatever the exception,
    leaves the class and every account as they were. *)
Theorem failed_call_changes_nothing
  (self : loc) (amount : arg) (w w' : world) (e : exn) :
  deposit self amount w = (inl e, w') \/ withdraw self amount w = (inl e, w') ->
  w' = w.
Proof.
  rewrite deposit_eq, withdraw_eq.
  destruct (positive amount) as [d |]; [| intros [|]; congruence].
  destruct (heap w !! self) as [a |]; [| intros [|]; congruence].
  destruct (PyDecimal.add getcontext (balance a) d),
    (PyDecimal.gt d (balance a)) as [e' | []],
    (PyDecimal.sub getcontext (balance a) d);
    intros [|]; congruence.
Qed.

Lemma failed_call_changes_nothing_witness :
  deposit 0%nat (Numeric (PyDecimal.Finite (-50) 0)) account_100
  = (inl InvalidAmountError, account_100) /\ account_100 = account_100.
Proof.
  split; [reflexivity |].
  exact (failed_call_changes_nothing 0%nat
           (Numeric (PyDecimal.Finite (-50) 0)) account_100 account_100
           InvalidAmountError (or_introl eq_refl)).
Defined.

(** X9. A [deposit] that returns has read an amount above zero, returns
    [balance + amount] as the context computes it, and has changed the
    balance of [self] to that value and nothing else: the other
    accounts and the counter are as before, and [get_balance()] returns
    the value returned. *)
Theorem deposit_returns
  (self : loc) (amount : arg) (w w' : world) (b : PyDecimal.t) :
  deposit self amount w = (inr b, w') ->
  (exists a d,
      heap w !! self = Some a /\
      Decimal_str amount = inr d /\
      PyDecimal.le d PyDecimal.zero = inr false /\
      PyDecimal.add getcontext (balance a) d = inr b /\
      heap w' !! self = Some (with_balance a b)) /\
  (forall l, l <> self -> heap w' !! l = heap w !! l) /\
  _next_account_number w' = _next_account_number w /\
  get_balance self w' = (inr b, w').
Proof.
  rewrite deposit_eq.
  destruct (positive amount) as [d |] eqn:Hd; [| discriminate].
  destruct (heap w !! self) as [a |] eqn:Ha; [| discriminate].
  destruct (PyDecimal.add getcontext (balance a) d) as [e | b'] eqn:Hadd;
    [discriminate |].
  intros [= <- <-]. apply positive_Some in Hd as [Hd1 Hd2].
  assert (Hl : heap (store w self (with_balance a b')) !! self
               = Some (with_balance a b')).
  { simpl. apply list_lookup_insert_eq. eapply lookup_lt_Some; eassumption. }
  split; [exists a, d; repeat split; assumption |].
  split; [intros l Hne; simpl; now apply list_lookup_insert_ne |].
  split; [reflexivity |].
  unfold get_balance. now rewrite Hl.
Qed.

Lemma deposit_returns_witness :
  exists w' : world,
    deposit 0%nat (Numeric (PyDecimal.Finite 50 0)) account_100
    = (inr (PyDecimal.Finite 150 0), w') /\
    get_balance 0%nat w' = (inr (PyDecimal.Finite 150 0), w').
Proof.
  eexists. split; [reflexivity |].
  apply (deposit_returns 0%nat (Numeric (PyDecimal.Finite 50 0))
           account_100 _ _ eq_refl).
Defined.

(** X10. A [withdraw] that returns has read an amount above zero that
    does not exceed the balance, returns [balance - amount] as the
    context computes it, and has changed the balance of [self] to that
    value and nothing else. *)
Theorem withdraw_returns
  (self : loc) (amount : arg) (w w' : world) (b : PyDecimal.t) :
  withdraw self amount w = (inr b, w') ->
  (exists a d,
      heap w !! self = Some a /\
      Decimal_str amount = inr d /\
      PyDecimal.le d PyDecimal.zero = inr false /\
      PyDecimal.gt d (balance a) = inr false /\
      PyDecimal.sub getcontext (balance a) d = inr b /\
      heap w' !! self = Some (with_balance a b)) /\
  (forall l, l <> self -> heap w' !! l = heap w !! l) /\
  _next_account_number w' = _next_account_number w /\
  get_balance self w' = (inr b, w').
Proof.
  rewrite withdraw_eq.
  destruct (positive amount) as [d |] eqn:Hd; [| discriminate].
  destruct (heap w !! self) as [a |] eqn:Ha; [| discriminate].
  destruct (PyDecimal.gt d (balance a)) as [e | []] eqn:Hgt; try discriminate.
  destruct (PyDecimal.sub getcontext (balance a) d) as [e | b'] eqn:Hsub;
    [discriminate |].
  intros [= <- <-]. apply positive_Some in Hd as [Hd1 Hd2].
  assert (Hl : heap (store w self (with_balance a b')) !! self
               = Some (with_balance a b')).
  { simpl. apply list_lookup_insert_eq. eapply lookup_lt_Some; eassumption. }
  split; [exists a, d; repeat split; assumption |].
  split; [intros l Hne; simpl; now apply list_lookup_insert_ne |].
  split; [reflexivity |].
  unfold get_balance. now rewrite Hl.
Qed.

Lemma withdraw_returns_witness :
  exists w' : world,
    withdraw 0%nat (Numeric (PyDecimal.Finite 30 0)) account_100
    = (inr (PyDecimal.Finite 70 0), w') /\
    get_balance 0%nat w' = (inr (PyDecimal.Finite 70 0), w').
Proof.
  eexists. split; [reflexivity |].
  apply (withdraw_returns 0%nat (Numeric (PyDecimal.Finite 30 0))
           account_100 _ _ eq_refl).
Defined.



(** X12. Withdrawing from a finite balance an amount above zero that is
    equal to it returns, and the balance left is zero. *)
Theorem withdraw_whole_balance
  (w : world) (self : loc) (a : BankAccount.t) (cb eb cd ed : Z) :
  heap w !! self = Some a -> balance a = PyDecimal.Finite cb eb ->
  0 < cd ->
  PyDecimal.cmp (PyDecimal.Finite cd ed) (balance a) = inr Eq ->
  exists (e0 : Z) (w' : world),
    withdraw self (Numeric (PyDecimal.Finite cd ed)) w
    = (inr (PyDecimal.Finite 0 e0), w') /\
    balance <$> heap w' !! self = Some (PyDecimal.Finite 0 e0) /\
    PyDecimal.cmp (PyDecimal.Finite 0 e0) PyDecimal.zero = inr Eq.
Proof.
  intros Ha Hbal Hd Hcmp. rewrite Hbal in Hcmp.
  destruct (sub_equal getcontext cb eb cd ed) as [e0 Hsub];
    [lia | assumption |].
  exists e0. eexists. rewrite withdraw_eq.
  unfold positive. rewrite (proj2 (le_zero_false_Finite cd ed) Hd), Ha, Hbal.
  unfold PyDecimal.gt, PyDecimal.test. rewrite Hcmp, Hsub.
  split; [reflexivity |]. split; [| reflexivity].
  simpl. now rewrite list_lookup_insert_eq
    by (eapply lookup_lt_Some; eassumption).
Qed.

Lemma withdraw_whole_balance_witness :
  exists (e0 : Z) (w' : world),
    withdraw 0%nat (Numeric (PyDecimal.Finite 10000 (-2))) account_100
    = (inr (PyDecimal.Finite 0 e0), w') /\
    balance <$> heap w' !! 0%nat = Some (PyDecimal.Finite 0 e0) /\
    PyDecimal.cmp (PyDecimal.Finite 0 e0) PyDecimal.zero = inr Eq.
Proof.
  eapply (withdraw_whole_balance account_100 0%nat _ 100 0 10000 (-2));
    [reflexivity | reflexivity | lia | reflexivity].
Defined.

(** X13. Between two distinct accounts whose balances and the amount
    are written at one exponent (whole units, or cents), with
    [0 < amount <= sender's balance], both results below 28 digits and
    the exponent within the range of the context, a transfer returns
    and moves the amount exactly: the sender has [c1 - cd], the receiver
    [c2 + cd], and the total is what it was. *)
Theorem transfer_same_exponent
  (w : world) (self other : loc) (a1 a2 : BankAccount.t) (c1 c2 cd e : Z) :
  self <> other ->
  heap w !! self = Some a1 -> heap w !! other = Some a2 ->
  balance a1 = PyDecimal.Finite c1 e -> balance a2 = PyDecimal.Finite c2 e ->
  0 < cd <= c1 -> c1 < 10 ^ 28 -> 0 <= c2 -> c2 + cd < 10 ^ 28 ->
  PyDecimal.Etiny getcontext <= e <= PyDecimal.Etop getcontext ->
  transfer_to self (Instance other) (Numeric (PyDecimal.Finite cd e)) w
  = (inr (PyDecimal.Finite (c1 - cd) e, PyDecimal.Finite (c2 + cd) e),
     store (store w self (with_balance a1 (PyDecimal.Finite (c1 - cd) e)))
           other (with_balance a2 (PyDecimal.Finite (c2 + cd) e))) /\
  (c1 - cd) + (c2 + cd) = c1 + c2.
Proof.
  intros Hne H1 H2 Hb1 Hb2 Hd Hc1 Hc2 Hsum He. split; [| lia].
  assert (Hprec : 1 <= PyDecimal.prec getcontext) by (simpl; lia).
  rewrite transfer_eq, withdraw_eq. unfold positive.
  rewrite (proj2 (le_zero_false_Finite cd e) (proj1 Hd)), H1, Hb1.
  rewrite gt_same_exponent.
  destruct (Z.ltb_spec c1 cd); [lia |].
  rewrite sub_same_exponent by (assumption || lia).
  rewrite deposit_eq. unfold positive.
  rewrite (proj2 (le_zero_false_Finite cd e) (proj1 Hd)).
  cbn [store heap]. rewrite list_lookup_insert_ne by assumption.
  rewrite H2, Hb2, add_same_exponent by (assumption || lia).
  cbn [store heap].
  rewrite list_lookup_insert_ne by congruence.
  rewrite list_lookup_insert_eq by (eapply lookup_lt_Some; eassumption).
  rewrite list_lookup_insert_eq
    by (rewrite length_insert; eapply lookup_lt_Some; eassumption).
  reflexivity.
Qed.

Lemma transfer_same_exponent_witness :
  let w := run_calls initial_world
             [Construct (StrName "Alice") (Numeric (PyDecimal.Finite 100000 (-2)));
              Construct (StrName "Bob") (Numeric (PyDecimal.Finite 50000 (-2)))] in
  fst (transfer_to 0%nat (Instance 1%nat)
         (Numeric (PyDecimal.Finite 20000 (-2))) w)
  = inr (PyDecimal.Finite (100000 - 20000) (-2),
         PyDecimal.Finite (50000 + 20000) (-2)).
Proof.
  intros w.
  rewrite (proj1 (transfer_same_exponent w 0%nat 1%nat _ _
                    100000 50000 20000 (-2)
                    ltac:(discriminate) eq_refl eq_refl eq_refl eq_refl
                    ltac:(lia) ltac:(reflexivity) ltac:(lia)
                    ltac:(reflexivity)
                    ltac:(vm_compute; split; discriminate))).
  reflexivity.
Defined.

(** X14. A transfer to the account itself is not refused: under the
    conditions of X13 it withdraws and deposits on the same account,
    returns the balance twice and leaves it as it was. *)
Theorem transfer_to_self
  (w : world) (self : loc) (a : BankAccount.t) (c cd e : Z) :
  heap w !! self = Some a -> balance a = PyDecimal.Finite c e ->
  0 < cd <= c -> c < 10 ^ 28 ->
  PyDecimal.Etiny getcontext <= e <= PyDecimal.Etop getcontext ->
  exists w' : world,
    transfer_to self (Instance self) (Numeric (PyDecimal.Finite cd e)) w
    = (inr (PyDecimal.Finite c e, PyDecimal.Finite c e), w') /\
    heap w' !! self = Some (with_balance a (PyDecimal.Finite c e)) /\
    (forall l, l <> self -> heap w' !! l = heap w !! l).
Proof.
  intros Ha Hb Hd Hc He.
  assert (Hprec : 1 <= PyDecimal.prec getcontext) by (simpl; lia).
  assert (Hlt : (self < length (heap w))%nat)
    by (eapply lookup_lt_Some; eassumption).
  eexists. rewrite transfer_eq, withdraw_eq. unfold positive.
  rewrite (proj2 (le_zero_false_Finite cd e) (proj1 Hd)), Ha, Hb.
  rewrite gt_same_exponent.
  destruct (Z.ltb_spec c cd); [lia |].
  rewrite sub_same_exponent by (assumption || lia).
  rewrite deposit_eq. unfold positive.
  rewrite (proj2 (le_zero_false_Finite cd e) (proj1 Hd)).
  cbn [store heap]. rewrite list_lookup_insert_eq by assumption.
  cbn [with_balance balance].
  rewrite add_same_exponent
    by (assumption || (unfold getcontext; cbn [PyDecimal.prec PyDecimal.DefaultContext]; lia)).
  replace (c - cd + cd) with c by lia.
  cbn [store heap].
  assert (Hl2 : forall x1 x2 : BankAccount.t,
             <[self := x2]> (<[self := x1]> (heap w)) !! self = Some x2).
  { intros x1 x2. apply list_lookup_insert_eq.
    now rewrite length_insert. }
  rewrite Hl2. cbn [with_balance balance].
  split; [reflexivity |]. split.
  - cbn [store heap]. now rewrite Hl2.
  - intros l Hne. cbn [store heap].
    now rewrite !list_lookup_insert_ne by congruence.
Qed.

Lemma transfer_to_self_witness :
  exists w' : world,
    transfer_to 0%nat (Instance 0%nat) (Numeric (PyDecimal.Finite 40 0))
      account_100
    = (inr (PyDecimal.Finite 100 0, PyDecimal.Finite 100 0), w').
Proof.
  destruct (transfer_to_self account_100 0%nat _ 100 40 0 eq_refl eq_refl
              ltac:(lia) ltac:(reflexivity)
              ltac:(vm_compute; split; discriminate))
    as (w' & H & _).
  exists w'. exact H.
Defined.

End BankExtrasArithmetic.

(* ===================================================================== *)
(** ** Array: further properties                                          *)
(* ===================================================================== *)

Section ArrayExtraFacts.
Import Py Array.
Local Open Scope py_scope.

(** On values followed by empty slots, [get_length()] is the number of
    values. *)
Lemma count_not_None_app (l1 l2 : list value) :
  count_not_None (l1 ++ l2) = count_not_None l1 + count_not_None l2.
Proof.
  induction l1 as [| x l1 IH]; [reflexivity |].
  cbn [app count_not_None]. rewrite IH. lia.
Qed.

Lemma count_not_None_all (p : list value) :
  Forall (fun x => is_None x = false) p ->
  count_not_None p = Z.of_nat (length p).
Proof.
  induction 1 as [| x p Hx _ IH]; [reflexivity |].
  cbn [count_not_None length]. rewrite Hx, IH. lia.
Qed.

Lemma count_not_None_packed (p : list value) (m : nat) :
  Forall (fun x => is_None x = false) p ->
  count_not_None (p ++ replicate m None_) = Z.of_nat (length p).
Proof.
  intros Hp. rewrite count_not_None_app, count_not_None_replicate.
  rewrite (count_not_None_all p Hp). simpl. lia.
Qed.

(** Emptying a slot lowers the count by one if the slot held a value. *)
Lemma count_not_None_insert_None (l : list value) (i : nat) (x : value) :
  l !! i = Some x ->
  count_not_None (<[i := None_]> l)
  = count_not_None l - (if is_None x then 0 else 1).
Proof.
  revert i. induction l as [| y l IH]; intros [| i] H; try discriminate.
  - injection H as ->. simpl. destruct (is_None x); lia.
  - simpl in H. specialize (IH i H).
    change (<[S i := None_]> (y :: l)) with (y :: <[i := None_]> l).
    cbn [count_not_None]. lia.
Qed.

Lemma index_None_iff (l : list value) (x : value) :
  index l x = None <-> forall i, l !! i <> Some x.
Proof.
  split; [apply index_None |].
  intros H. destruct (index l x) as [i |] eqn:E; [| reflexivity].
  destruct (index_Some _ _ _ E) as [Hi _]. now apply H in Hi.
Qed.

(** [l.index(x)] finds [x] at or before any position that holds it. *)
Lemma index_le (l : list value) (x : value) (i : nat) :
  l !! i = Some x -> exists j, index l x = Some j /\ (j <= i)%nat.
Proof.
  intros H. destruct (index l x) as [j |] eqn:E.
  - exists j. split; [reflexivity |].
    destruct (index_Some _ _ _ E) as [_ Hfirst].
    destruct (Nat.le_gt_cases j i) as [| Hlt]; [assumption |].
    now apply Hfirst in Hlt.
  - now apply index_None in H.
Qed.

Lemma size_insert_at_index (a : Array.t) (i : Z) (element : value) :
  well_formed a -> size (snd (insert_at_index i element a)) = size a.
Proof.
  intros Hwf.
  now destruct (insert_at_index_cases a i element Hwf)
    as [[e ->] | (l & -> & _)].
Qed.

Lemma exec_shape (c : call) (a : Array.t) :
  well_formed a ->
  well_formed (snd (exec c a)) /\ size (snd (exec c a)) = size a.
Proof.
  intros Hwf. destruct c as [x | i x | i x | i x | x | x];
    unfold exec, outcome; cbn [snd].
  - split; [now apply well_formed_insert_first |].
    pose proof (get_length_bounds a) as Hb. unfold well_formed in Hwf.
    destruct (Z.leb_spec (size a) (get_length a)) as [Hfull | Hfull].
    + unfold insert_first, bind, get, raise.
      now destruct (Z.leb_spec (size a) (get_length a)); [| lia].
    + now rewrite insert_first_ok.
  - split; [now apply well_formed_insert_at_index
           | now apply size_insert_at_index].
  - split; [now apply well_formed_insert_after_index |].
    unfold insert_after_index, bind, get, raise.
    destruct (size a <=? get_length a); [reflexivity |].
    destruct ((i <? 0) || (get_length a <=? i)); [reflexivity |].
    now apply size_insert_at_index.
  - split; [now apply well_formed_insert_before_index |].
    unfold insert_before_index, bind, get, raise.
    destruct (size a <=? get_length a); [reflexivity |].
    destruct ((i <? 0) || (get_length a <? i)); [reflexivity |].
    now apply size_insert_at_index.
  - split; [now apply well_formed_delete |].
    unfold delete, bind, get.
    destruct (index (items a) x) as [j |] eqn:E; [| reflexivity].
    destruct (index_Some _ _ _ E) as [Hj _].
    unfold set_item, bind, get, lift, put, ret.
    now rewrite setitem_nat by (eapply lookup_lt_Some; eassumption).
  - split; [exact Hwf | reflexivity].
Qed.

Lemma run_calls_shape (cs : list call) :
  forall a, well_formed a ->
            well_formed (run_calls a cs) /\ size (run_calls a cs) = size a.
Proof.
  induction cs as [| c cs IH]; intros a Hwf; [now split |].
  destruct (exec_shape c a Hwf) as [H1 H2].
  destruct (IH _ H1) as [H3 H4].
  change (run_calls a (c :: cs)) with (run_calls (snd (exec c a)) cs).
  split; [exact H3 | congruence].
Qed.

End ArrayExtraFacts.

Section ArrayExtras.
Import Py Array.
Local Open Scope py_scope.

(** X15. An array that the constructor has built keeps its shape under
    any calls of its methods, returning or raising: [size] never
    changes, [items] always has [size] slots, and [get_length()] stays
    between 0 and [size]. *)
Theorem shape_invariant (n d : value) (a : Array.t) (cs : list call) :
  __init__ n d = inr a ->
  size (run_calls a cs) = size a /\
  Z.of_nat (length (items (run_calls a cs))) = size a /\
  0 <= get_length (run_calls a cs) <= size a.
Proof.
  intros Hinit. apply init_well_formed in Hinit.
  destruct (run_calls_shape cs a Hinit) as [Hwf Hsize].
  unfold well_formed in Hwf.
  pose proof (get_length_bounds (run_calls a cs)).
  repeat split; lia.
Qed.

Lemma shape_invariant_witness :
  let cs := [InsertFirst (Int 3); InsertAfterIndex 1 (Int 4);
             InsertAtIndex 10 (Int 999); Delete (Int 1); Search (Int 4)] in
  exists a : Array.t,
    __init__ (Int 5) (List_ [Int 1]) = inr a /\
    size (run_calls a cs) = size a /\
    Z.of_nat (length (items (run_calls a cs))) = size a /\
    0 <= get_length (run_calls a cs) <= size a.
Proof.
  intros cs. eexists. split; [reflexivity |].
  exact (shape_invariant (Int 5) (List_ [Int 1]) _ cs eq_refl).
Defined.





(** [insert_after_index(-1, x)] is refused where [insert_at_index(0, x)]
    inserts. *)
Example insert_after_minus_one :
  let a := {| size := 4; items := [Int 1; Int 2; None_; None_] |} in
  fst (insert_after_index (-1) (Int 7) a) = inl IndexError /\
  fst (insert_at_index 0 (Int 7) a) = inr tt.
Proof. split; reflexivity. Qed.

(** X18. On a front-packed array, the values [p] followed by at least
    one empty slot, [insert_at_index(i, x)] with [0 <= i <= len(p)]
    returns and is the insertion of [x] at position [i] of [p]: the
    values before [i] stay, [x] follows, the values from [i] on move
    one place to the right and one empty slot is used up. With an [x]
    that is not [None] the array is front-packed again and
    [get_length()] is one more. *)
Theorem insert_at_index_packed
  (sz : Z) (p : list value) (m i : nat) (element : value) :
  Z.of_nat (length p + S m) = sz ->
  Forall (fun x => is_None x = false) p ->
  (i <= length p)%nat ->
  let a := {| size := sz; items := p ++ replicate (S m) None_ |} in
  let a' := {| size := sz;
               items := (take i p ++ element :: drop i p) ++ replicate m None_ |} in
  insert_at_index (Z.of_nat i) element a = (inr tt, a') /\
  get_length a = Z.of_nat (length p) /\
  get_length a' = get_length a + (if is_None element then 0 else 1).
Proof.
  intros Hsz Hp Hi a a'.
  assert (HL : get_length a = Z.of_nat (length p))
    by (apply count_not_None_packed; assumption).
  assert (Hwf : well_formed a).
  { unfold well_formed, a. cbn [items size].
    rewrite length_app, length_replicate. lia. }
  assert (Hs : size a = sz) by reflexivity.
  split; [| split; [exact HL |]].
  - rewrite insert_at_index_ok by (assumption || lia).
    unfold a'. do 2 f_equal. rewrite HL, Nat2Z.id. unfold inserted, a.
    cbn [items]. rewrite <- app_assoc. simpl.
    rewrite take_app_le by lia. f_equal. f_equal.
    rewrite drop_app_le by lia.
    rewrite take_app_length' by (rewrite length_drop; lia).
    f_equal. rewrite drop_app_ge by lia.
    replace (i + (length p - i) + 1 - length p)%nat with 1%nat by lia.
    reflexivity.
  - rewrite HL. unfold get_length, a'. cbn [items].
    rewrite !count_not_None_app. cbn [count_not_None].
    rewrite count_not_None_replicate. cbn [is_None].
    pose proof (count_not_None_app (take i p) (drop i p)) as Hc.
    rewrite take_drop, (count_not_None_all p Hp) in Hc.
    destruct (is_None element); lia.
Qed.

Lemma insert_at_index_packed_witness :
  let a := {| size := 4; items := [Int 1; Int 3] ++ replicate 2 None_ |} in
  insert_at_index (Z.of_nat 1) (Int 2) a
  = (inr tt, {| size := 4;
                items := (take 1 [Int 1; Int 3] ++ Int 2 :: drop 1 [Int 1; Int 3])
                         ++ replicate 1 None_ |}).
Proof.
  intros a.
  apply (insert_at_index_packed 4 [Int 1; Int 3] 1 1 (Int 2));
    [reflexivity | repeat constructor | simpl; lia].
Defined.

(** X19. On a front-packed array with an empty slot, the values [p]
    being any, none included, [insert_first(x)] puts [x] in front of
    the values; and [insert_after_index(i, x)] with [0 <= i < len(p)]
    puts [x] right after the value at [i]. *)
Theorem insert_first_after_packed
  (sz : Z) (p : list value) (m i : nat) (element : value) :
  Z.of_nat (length p + S m) = sz ->
  Forall (fun x => is_None x = false) p ->
  let a := {| size := sz; items := p ++ replicate (S m) None_ |} in
  insert_first element a
  = (inr tt, {| size := sz; items := (element :: p) ++ replicate m None_ |}) /\
  ((i < length p)%nat ->
   insert_after_index (Z.of_nat i) element a
   = (inr tt, {| size := sz;
                 items := (take (S i) p ++ element :: drop (S i) p)
                          ++ replicate m None_ |})).
Proof.
  intros Hsz Hp a.
  assert (HL : get_length a = Z.of_nat (length p))
    by (apply count_not_None_packed; assumption).
  assert (Hwf : well_formed a).
  { unfold well_formed, a. cbn [items size].
    rewrite length_app, length_replicate. lia. }
  assert (Hs : size a = sz) by reflexivity.
  split.
  - rewrite insert_first_ok by (assumption || lia).
    do 2 f_equal. rewrite HL, Nat2Z.id. unfold a. cbn [items]. simpl. f_equal.
    rewrite take_app_length.
    rewrite drop_app_ge by lia.
    replace (S (length p) - length p)%nat with 1%nat by lia. reflexivity.
  - intros Hi. unfold insert_after_index. unfold bind at 1, get at 1.
    destruct (Z.leb_spec (size a) (get_length a)) as [Hfull | _]; [lia |].
    destruct (Z.ltb_spec (Z.of_nat i) 0); [lia |].
    destruct (Z.leb_spec (get_length a) (Z.of_nat i)); [lia |]. cbn [orb].
    replace (Z.of_nat i + 1) with (Z.of_nat (S i)) by lia.
    apply (insert_at_index_packed sz p m (S i) element); assumption || lia.
Qed.

Lemma insert_first_after_packed_witness :
  let a := {| size := 5; items := [Int 3; Int 1] ++ replicate 3 None_ |} in
  let empty := {| size := 3; items := [] ++ replicate 3 None_ |} in
  insert_first (Int 4) a
  = (inr tt, {| size := 5; items := (Int 4 :: [Int 3; Int 1]) ++ replicate 2 None_ |}) /\
  insert_after_index (Z.of_nat 1) (Int 4) a
  = (inr tt, {| size := 5;
                items := (take 2 [Int 3; Int 1] ++ Int 4 :: drop 2 [Int 3; Int 1])
                         ++ replicate 2 None_ |}) /\
  insert_first (Int 1) empty
  = (inr tt, {| size := 3; items := (Int 1 :: []) ++ replicate 2 None_ |}).
Proof.
  intros a empty.
  destruct (insert_first_after_packed 5 [Int 3; Int 1] 2 1 (Int 4))
    as [H1 H2]; [reflexivity | repeat constructor |].
  destruct (insert_first_after_packed 3 [] 2 0 (Int 1))
    as [H3 _]; [reflexivity | constructor |].
  split; [exact H1 |]. split; [apply H2; simpl; lia | exact H3].
Defined.

End ArrayExtras.

Section ArraySearchDelete.
Import Py Array.
Local Open Scope py_scope.

(** X20. [search(element)] never changes the array and never raises.
    It returns the position of the first slot equal to [element], over
    all the slots and not only the first [get_length()] ones (so
    [search(None)] finds the first empty slot), or [None] when no slot
    is equal to it. *)
Theorem search_first_match (a : Array.t) (element : value) :
  (exists i : nat,
      search element a = (inr (Some (Z.of_nat i)), a) /\
      items a !! i = Some element /\
      (forall j, (j < i)%nat -> items a !! j <> Some element))
  \/
  (search element a = (inr None, a) /\
   forall i : nat, items a !! i <> Some element).
Proof.
  unfold search, bind, get, ret.
  destruct (index (items a) element) as [i |] eqn:E.
  - left. exists i. destruct (index_Some _ _ _ E) as [Hi Hfirst].
    now repeat split.
  - right. split; [reflexivity | now apply index_None].
Qed.

(** X21. After [delete(element)] of an element that is not [None] and
    occupies a single slot, [search(element)] returns [None]. *)
Theorem delete_then_search (a : Array.t) (element : value) (i : nat) :
  is_None element = false ->
  items a !! i = Some element ->
  (forall j, items a !! j = Some element -> j = i) ->
  fst (delete element a) = inr true /\
  search element (snd (delete element a))
  = (inr None, snd (delete element a)).
Proof.
  intros Hne Hi Huniq.
  destruct (index_le _ _ _ Hi) as (j & Hj & _).
  destruct (index_Some _ _ _ Hj) as [Hj' _].
  apply Huniq in Hj' as ->.
  unfold delete, bind, get. rewrite Hj.
  unfold set_item, bind, get, lift, put, ret.
  rewrite setitem_nat by (eapply lookup_lt_Some; eassumption).
  split; [reflexivity |]. cbn [snd].
  unfold search, bind, get, ret. cbn [items].
  replace (index (<[i := None_]> (items a)) element) with (@None nat);
    [reflexivity |].
  symmetry. apply index_None_iff. intros k Hk.
  destruct (decide (i = k)) as [<- | Hik].
  - rewrite list_lookup_insert_eq in Hk
      by (eapply lookup_lt_Some; eassumption).
    injection Hk as <-. discriminate.
  - rewrite list_lookup_insert_ne in Hk by assumption.
    apply Huniq in Hk. congruence.
Qed.

Lemma delete_then_search_witness :
  let a := {| size := 3; items := [Int 1; Int 2; Int 3] |} in
  is_None (Int 2) = false /\ items a !! 1%nat = Some (Int 2) /\
  fst (delete (Int 2) a) = inr true /\
  search (Int 2) (snd (delete (Int 2) a))
  = (inr None, snd (delete (Int 2) a)).
Proof.
  intros a. split; [reflexivity |]. split; [reflexivity |].
  apply (delete_then_search a (Int 2) 1); [reflexivity | reflexivity |].
  intros [| [| [| j]]] H; try discriminate; reflexivity.
Defined.

(** X22. [delete(element)] that returns [True] for an element that is
    not [None] lowers [get_length()] by exactly one; [delete(None)]
    never changes the array, even when it returns [True]; and a
    [delete] that returns [False] changes nothing. *)
Theorem delete_get_length (a : Array.t) (element : value) :
  (fst (delete element a) = inr true ->
   is_None element = false ->
   get_length (snd (delete element a)) = get_length a - 1) /\
  (is_None element = true -> snd (delete element a) = a) /\
  (fst (delete element a) = inr false -> snd (delete element a) = a).
Proof.
  unfold delete, bind, get.
  destruct (index (items a) element) as [i |] eqn:E.
  - destruct (index_Some _ _ _ E) as [Hi _].
    unfold set_item, bind, get, lift, put, ret.
    rewrite setitem_nat by (eapply lookup_lt_Some; eassumption).
    cbn [fst snd]. split; [| split].
    + intros _ Hne. unfold get_length. cbn [items].
      rewrite (count_not_None_insert_None _ _ _ Hi), Hne. reflexivity.
    + intros Hnone. destruct element; try discriminate.
      rewrite (list_insert_id _ _ _ Hi). now destruct a.
    + discriminate.
  - cbn [fst snd]. split; [discriminate | split; reflexivity].
Qed.

Lemma delete_get_length_witness :
  let a := {| size := 5; items := [Int 1; Int 2; Int 3; Int 2; None_] |} in
  get_length (snd (delete (Int 2) a)) = get_length a - 1 /\
  snd (delete None_ a) = a /\
  fst (delete None_ a) = inr true.
Proof.
  intros a.
  destruct (delete_get_length a (Int 2)) as (H1 & _ & _).
  destruct (delete_get_length a None_) as (_ & H2 & _).
  split; [apply H1; reflexivity |]. split; [apply H2; reflexivity | reflexivity].
Defined.

(** X23. After [insert_at_index(i, element)] has returned, on an array
    of [size] slots, the slot at [i] holds [element] and
    [search(element)] returns a position at or before [i]. *)
Theorem insert_then_search (a a' : Array.t) (i : Z) (element : value) :
  well_formed a ->
  insert_at_index i element a = (inr tt, a') ->
  items a' !! Z.to_nat i = Some element /\
  exists j : nat,
    search element a' = (inr (Some (Z.of_nat j)), a') /\ Z.of_nat j <= i.
Proof.
  intros Hwf H. pose proof (get_length_bounds a) as Hb.
  pose proof Hwf as Hlen. unfold well_formed in Hlen.
  assert (Hrange : get_length a < size a /\ 0 <= i <= get_length a).
  { unfold insert_at_index, bind, get, raise in H.
    destruct (Z.leb_spec (size a) (get_length a)); [discriminate |].
    destruct (Z.ltb_spec i 0); [discriminate |].
    destruct (Z.ltb_spec (get_length a) i); [discriminate |]. lia. }
  destruct Hrange as [Hfull Hi].
  rewrite <- (Z2Nat.id i) in H by lia.
  rewrite insert_at_index_ok in H by (assumption || lia).
  injection H as <-. cbn [items].
  assert (Hat : inserted (Z.to_nat i) (Z.to_nat (get_length a) - Z.to_nat i)
                  element (items a) !! Z.to_nat i = Some element).
  { unfold inserted. rewrite lookup_app_r by (rewrite length_take; lia).
    rewrite length_take.
    now replace (Z.to_nat i - Z.to_nat i `min` length (items a))%nat
      with O by lia. }
  split; [exact Hat |].
  destruct (index_le _ _ _ Hat) as (j & Hj & Hle).
  exists j. unfold search, bind, get, ret. cbn [items]. rewrite Hj.
  split; [reflexivity | lia].
Qed.

Lemma insert_then_search_witness :
  let a := {| size := 5; items := [Int 1; Int 2; None_; None_; None_] |} in
  exists a' : Array.t,
    well_formed a /\
    insert_at_index 1 (Int 9) a = (inr tt, a') /\
    items a' !! Z.to_nat 1 = Some (Int 9) /\
    exists j : nat,
      search (Int 9) a' = (inr (Some (Z.of_nat j)), a') /\ Z.of_nat j <= 1.
Proof.
  intros a. eexists. split; [reflexivity |]. split; [reflexivity |].
  apply (insert_then_search a _ 1 (Int 9)); reflexivity.
Defined.

(** X24. [Array(c, l)] with a list [l] of at most [c > 0] values returns
    an array of [c] slots: the values of [l] in order, then empty slots;
    [get_length()] is the number of values of [l] that are not [None]. *)
Theorem init_from_list (c : Z) (l : list value) :
  0 < c -> Z.of_nat (length l) <= c ->
  exists a : Array.t,
    __init__ (Int c) (List_ l) = inr a /\
    size a = c /\
    Z.of_nat (length (items a)) = c /\
    items a = l ++ replicate (Z.to_nat c - length l) None_ /\
    get_length a = count_not_None l /\
    (Forall (fun x => is_None x = false) l ->
     get_length a = Z.of_nat (length l)).
Proof.
  intros Hc Hl. unfold __init__.
  destruct (Z.leb_spec c 0); [lia |].
  destruct (Z.ltb_spec c (Z.of_nat (length l))); [lia |].
  eexists. split; [reflexivity |]. split; [reflexivity |].
  cbn [items]. split; [rewrite length_app, length_replicate; lia |].
  split; [do 2 f_equal; lia |].
  assert (Hg : get_length
                 {| size := c;
                    items := l ++ replicate (Z.to_nat (c - Z.of_nat (length l))) None_ |}
               = count_not_None l).
  { unfold get_length. cbn [items].
    rewrite count_not_None_app, count_not_None_replicate. simpl. lia. }
  split; [exact Hg |].
  intros Hall. rewrite Hg. now apply count_not_None_all.
Qed.

Lemma init_from_list_witness :
  exists a : Array.t,
    __init__ (Int 5) (List_ [Int 1; Int 2; None_; Int 3]) = inr a /\
    items a = [Int 1; Int 2; None_; Int 3; None_] /\
    get_length a = 3.
Proof.
  destruct (init_from_list 5 [Int 1; Int 2; None_; Int 3])
    as (a & H1 & _ & _ & H2 & H3 & _); [lia | simpl; lia |].
  exists a. split; [exact H1 |]. split; [exact H2 | exact H3].
Defined.

(** X25. The constructor raises exactly in these cases: TypeError when
    [size] is not an int; ValueError when it is an int that is not
    positive, whatever the default, or when the default is a list
    longer than [size]. In every other case it returns an array of
    [size] slots. *)
Theorem init_outcomes (n d : value) :
  match __init__ n d with
  | inl e =>
      (e = TypeError /\ forall c, n <> Int c) \/
      (e = ValueError /\
       exists c, n = Int c /\
                 (c <= 0 \/ exists l, d = List_ l /\ c < Z.of_nat (length l)))
  | inr a =>
      exists c, n = Int c /\ 0 < c /\ size a = c /\
                Z.of_nat (length (items a)) = c /\
                forall l, d = List_ l -> Z.of_nat (length l) <= c
  end.
Proof.
  destruct (__init__ n d) as [e | a] eqn:E.
  - unfold __init__ in E.
    destruct n as [| c | s | l]; try (injection E as <-; left; split;
                                      [reflexivity | discriminate]).
    right. destruct (Z.leb_spec c 0) as [Hc | Hc].
    + injection E as <-. split; [reflexivity |]. exists c. auto.
    + destruct d as [| z | s | l]; try discriminate.
      destruct (Z.ltb_spec c (Z.of_nat (length l))); [| discriminate].
      injection E as <-. split; [reflexivity |]. exists c.
      split; [reflexivity |]. right. eauto.
  - pose proof (init_well_formed _ _ _ E) as Hwf. unfold well_formed in Hwf.
    unfold __init__ in E.
    destruct n as [| c | s | l]; try discriminate.
    destruct (Z.leb_spec c 0) as [Hc | Hc]; [discriminate |].
    exists c. split; [reflexivity |]. split; [assumption |].
    assert (Hs : size a = c).
    { destruct d as [| z | s | l]; try (now injection E as <-).
      destruct (c <? Z.of_nat (length l)); [discriminate |].
      now injection E as <-. }
    split; [exact Hs |]. split; [lia |].
    intros l ->.
    destruct (Z.ltb_spec c (Z.of_nat (length l))); [discriminate | lia].
Qed.

End ArraySearchDelete.
